(** * Streaming watchers: a shallow embedding of the guides' monitors

    The repository holds four independent watcher scripts:
    - the Pump.fun token mint monitor   (pumpfun-monitor.js),
    - the Pump.fun migration listener   (class PumpFunMigrationListener),
    - the high value SOL transfer monitor (monitorHighValueTransfers),
    - the Hyperliquid whale tracker     (class HyperliquidWhaleTracker).

    Each script is embedded in a module of its own.  Mutable objects become
    records that are passed and returned, console output and network calls
    become entries of an effect trace, and JavaScript exceptions become the
    [Throw] case of a small completion monad. *)

From Stdlib Require Import QArith.
From Stdlib.Strings Require Import Byte Ascii String.
From stdpp Require Import base list strings gmap.

Local Open Scope string_scope.
Local Open Scope list_scope.

(** ** JavaScript completions *)

Inductive exn : Type :=
| RangeError
| TypeError.

Inductive completion (A : Type) : Type :=
| Return (a : A)
| Throw (e : exn).

Arguments Return {A} a.
Arguments Throw {A} e.

#[global] Instance completion_ret : MRet completion := @Return.

#[global] Instance completion_bind : MBind completion :=
  fun A B (k : A -> completion B) (m : completion A) =>
    match m with
    | Return a => k a
    | Throw e => Throw e
    end.

(** [try { m } catch (error) { return null; }] *)
Definition try_or_null {A : Type} (m : completion A) : option A :=
  match m with
  | Return a => Some a
  | Throw _ => None
  end.

(** ** Node.js [Buffer] primitives used by the scripts *)

Module Buf.

Definition Buffer : Type := list byte.

(** [buffer.readUInt32LE(offset)]: throws a RangeError unless the four
    bytes [offset .. offset+3] all exist. *)
Definition readUInt32LE (buffer : Buffer) (offset : nat) : completion N :=
  match drop offset buffer with
  | b0 :: b1 :: b2 :: b3 :: _ =>
      Return (Byte.to_N b0 + Byte.to_N b1 * 2 ^ 8
              + Byte.to_N b2 * 2 ^ 16 + Byte.to_N b3 * 2 ^ 24)%N
  | _ => Throw RangeError
  end.

(** [buffer.readBigUInt64LE(offset)]: same bounds rule over eight bytes. *)
Definition readBigUInt64LE (buffer : Buffer) (offset : nat) : completion N :=
  match drop offset buffer with
  | b0 :: b1 :: b2 :: b3 :: b4 :: b5 :: b6 :: b7 :: _ =>
      Return (Byte.to_N b0 + Byte.to_N b1 * 2 ^ 8
              + Byte.to_N b2 * 2 ^ 16 + Byte.to_N b3 * 2 ^ 24
              + Byte.to_N b4 * 2 ^ 32 + Byte.to_N b5 * 2 ^ 40
              + Byte.to_N b6 * 2 ^ 48 + Byte.to_N b7 * 2 ^ 56)%N
  | _ => Throw RangeError
  end.

(** [buffer.slice(start, end)] for non-negative indices: both ends are
    clamped to the buffer, nothing is ever thrown. *)
Definition slice (buffer : Buffer) (start stop : nat) : Buffer :=
  take (stop - start) (drop start buffer).

Definition byte_eqb (a b : byte) : bool := Byte.eqb a b.

(** [a.equals(b)]: same length and same bytes. *)
Fixpoint equals (a b : Buffer) : bool :=
  match a, b with
  | [], [] => true
  | x :: a', y :: b' => byte_eqb x y && equals a' b'
  | _, _ => false
  end.

(** The little-endian writers, [buffer.writeUIntLE] for [width] bytes:
    the inverse of the readers above, used to state round trips. *)
Definition byteOf (n : N) : byte :=
  match Byte.of_N (n mod 256) with
  | Some b => b
  | None => x00
  end.

Fixpoint writeLE (width : nat) (n : N) : Buffer :=
  match width with
  | O => []
  | S width' => byteOf n :: writeLE width' (n / 256)
  end.

Definition writeUInt32LE (n : N) : Buffer := writeLE 4 n.
Definition writeBigUInt64LE (n : N) : Buffer := writeLE 8 n.

(** The number a little-endian byte string stands for. *)
Fixpoint valueLE (bytes : Buffer) : N :=
  match bytes with
  | [] => 0
  | b :: rest => (Byte.to_N b + 256 * valueLE rest)%N
  end.

End Buf.

(** ** Strings *)

(** [s.includes(sub)] *)
Fixpoint includes (s sub : string) : bool :=
  String.prefix sub s ||
  match s with
  | EmptyString => false
  | String _ s' => includes s' sub
  end.

(** [list.includes(x)] on an array of strings *)
Definition list_includes (l : list string) (x : string) : bool :=
  existsb (String.eqb x) l.

(** A stand-in encoder for worked examples: a key is given by the ASCII
    bytes of its printed form.  Every theorem below holds for any encoder. *)
Definition ascii_text (b : list byte) : string := String.string_of_list_byte b.
Definition ascii_bytes (s : string) : list byte := String.list_byte_of_string s.

(** ** The Pump.fun token mint monitor (pumpfun-monitor.js) *)

Module MintMonitor.

Definition PUMPFUN_PROGRAM : string :=
  "6EF8rrecthR5Dkzon8Nwu78hRvfCKubJ14M5uBEwF6P".

(** [Buffer.from([24, 30, 200, 40, 5, 28, 7, 119])] *)
Definition CREATE_DISCRIMINATOR : Buf.Buffer :=
  [x18; x1e; xc8; x28; x05; x1c; x07; x77].

Record Stats : Type := mkStats {
  totalMints : nat;
  lastMintTime : option Z
}.

Record Decoded : Type := mkDecoded {
  value : string;
  bytesRead : N
}.

Record TokenMetadata : Type := mkTokenMetadata {
  name : string;
  symbol : string;
  uri : string
}.

Record Accounts : Type := mkAccounts {
  mint : option string;
  bondingCurve : option string;
  creator : option string
}.

Record Instruction : Type := mkInstruction {
  programIdIndex : nat;
  accounts : list nat;
  data : Buf.Buffer
}.

Record TxMessage : Type := mkTxMessage {
  accountKeys : list (list byte);
  instructions : list Instruction
}.

(** [message.transaction.transaction].  The stream also delivers the
    execution status of the transaction ([meta.err], set when the
    transaction failed); it is part of the record the handler receives. *)
Record TxInfo : Type := mkTxInfo {
  tx_signature : list byte;
  tx_message : TxMessage;
  tx_meta_err : option string
}.

Record TxUpdate : Type := mkTxUpdate {
  upd_transaction : TxInfo;
  upd_slot : N
}.

Record StreamMessage : Type := mkStreamMessage {
  pong : option N;
  transaction : option TxUpdate;
  filters : option (list string)
}.

Record TokenMint : Type := mkTokenMint {
  tm_metadata : TokenMetadata;
  tm_accounts : Accounts;
  tm_signature : string;
  tm_slot : N
}.

(** What the handler does to the outside world. *)
Inductive effect : Type :=
| WritePing (id : N)
| DisplayTokenMint (t : TokenMint)
| LogError (e : exn).

Section Codecs.

(** [bs58.encode] and [buffer.toString("utf8")], both total on bytes. *)
Variable bs58_encode : list byte -> string.
Variable utf8_toString : list byte -> string.

Definition decodeString (buffer : Buf.Buffer) (offset : nat)
  : completion Decoded :=
  length ← Buf.readUInt32LE buffer offset;
  let str :=
    utf8_toString
      (Buf.slice buffer (offset + 4) (offset + 4 + N.to_nat length)) in
  mret {| value := str; bytesRead := 4 + length |}.

Definition parseCreateInstruction (data : Buf.Buffer)
  : option TokenMetadata :=
  try_or_null (
    let offset := 8 in
    name ← decodeString data offset;
    let offset := offset + N.to_nat (bytesRead name) in
    symbol ← decodeString data offset;
    let offset := offset + N.to_nat (bytesRead symbol) in
    uri ← decodeString data offset;
    mret {| name := value name; symbol := value symbol; uri := value uri |}).

(** [bs58.encode(accountKeys[idx])] and
    [bs58.encode(Buffer.from(accountKeys[idx]))]: a TypeError when the
    index is past the end of the key list. *)
Definition encodeKey (accountKeys : list (list byte)) (idx : nat)
  : completion string :=
  match accountKeys !! idx with
  | Some key => Return (bs58_encode key)
  | None => Throw TypeError
  end.

Fixpoint mapKeys (accountKeys : list (list byte)) (indices : list nat)
  : completion (list string) :=
  match indices with
  | [] => Return []
  | idx :: rest =>
      a ← encodeKey accountKeys idx;
      as' ← mapKeys accountKeys rest;
      mret (a :: as')
  end.

Definition extractAccounts (message : TxMessage) (instructionIndex : nat)
  : option Accounts :=
  try_or_null (
    match instructions message !! instructionIndex with
    | None => Throw TypeError
    | Some instruction =>
        accounts ← mapKeys (accountKeys message) (accounts instruction);
        mret {| mint := accounts !! 0;
                bondingCurve := accounts !! 2;
                creator := accounts !! 7 |}
    end).

(** [data.slice(0, 8).equals(CREATE_DISCRIMINATOR)] *)
Definition discriminatorMatch (data : Buf.Buffer) : bool :=
  Buf.equals (Buf.slice data 0 8) CREATE_DISCRIMINATOR.

Definition isCreateInstruction (instruction : Instruction)
           (accountKeys : list (list byte)) : completion bool :=
  let programIdx := programIdIndex instruction in
  programId ← encodeKey accountKeys programIdx;
  if negb (String.eqb programId PUMPFUN_PROGRAM) then mret false
  else mret (discriminatorMatch (data instruction)).

Definition displayTokenMint (now : Z) (stats : Stats) (t : TokenMint)
  : Stats * list effect :=
  ({| totalMints := S (totalMints stats); lastMintTime := Some now |},
   [DisplayTokenMint t]).

(** The [for (let i = 0; i < instructions.length; i++)] loop of the
    data handler, from index [i] on.  An exception leaves the loop and
    is reported by the handler's [catch]. *)
Fixpoint scanInstructions (now : Z) (txMessage : TxMessage)
         (signature : string) (slot : N)
         (i : nat) (rest : list Instruction) (stats : Stats)
  : Stats * list effect :=
  match rest with
  | [] => (stats, [])
  | instruction :: rest' =>
      match isCreateInstruction instruction (accountKeys txMessage) with
      | Throw e => (stats, [LogError e])
      | Return false =>
          scanInstructions now txMessage signature slot (S i) rest' stats
      | Return true =>
          match parseCreateInstruction (data instruction) with
          | None =>
              scanInstructions now txMessage signature slot (S i) rest' stats
          | Some tokenMetadata =>
              match extractAccounts txMessage i with
              | None =>
                  scanInstructions now txMessage signature slot (S i)
                                   rest' stats
              | Some accounts =>
                  let '(stats1, out1) :=
                    displayTokenMint now stats
                      {| tm_metadata := tokenMetadata;
                         tm_accounts := accounts;
                         tm_signature := signature;
                         tm_slot := slot |} in
                  let '(stats2, out2) :=
                    scanInstructions now txMessage signature slot (S i)
                                     rest' stats1 in
                  (stats2, out1 ++ out2)
              end
          end
      end
  end.

(** [stream.on("data", (message) => { ... })] *)
Definition onData (now : Z) (message : StreamMessage) (stats : Stats)
  : Stats * list effect :=
  match pong message with
  | Some id => (stats, [WritePing id])
  | None =>
      match transaction message, filters message with
      | Some upd, Some fs =>
          if list_includes fs "pumpfun" then
            let tx := upd_transaction upd in
            let signature := bs58_encode (tx_signature tx) in
            let slot := upd_slot upd in
            let txMessage := tx_message tx in
            scanInstructions now txMessage signature slot
                             0 (instructions txMessage) stats
          else (stats, [])
      | _, _ => (stats, [])
      end
  end.

(** The token mints a handler run reports. *)
Definition mintsOf (out : list effect) : list TokenMint :=
  omap (fun e => match e with DisplayTokenMint t => Some t | _ => None end)
       out.

End Codecs.

(** *** Worked inputs *)

(** The same message with the execution status replaced. *)
Definition withStatus (e : option string) (m : StreamMessage)
  : StreamMessage :=
  {| pong := pong m;
     transaction :=
       match transaction m with
       | Some upd =>
           Some {| upd_transaction :=
                     {| tx_signature := tx_signature (upd_transaction upd);
                        tx_message := tx_message (upd_transaction upd);
                        tx_meta_err := e |};
                   upd_slot := upd_slot upd |}
       | None => None
       end;
     filters := filters m |}.

(** The little-endian length prefix followed by the text. *)
Definition lengthPrefixed (n : byte) (text : string) : Buf.Buffer :=
  [n; x00; x00; x00] ++ ascii_bytes text.

Definition createPayload : Buf.Buffer :=
  CREATE_DISCRIMINATOR ++ lengthPrefixed x03 "Foo"
    ++ lengthPrefixed x03 "FOO" ++ lengthPrefixed x08 "ipfs://x".

(** A create instruction inside a transaction that failed on chain. *)
Definition failedCreate : StreamMessage :=
  {| pong := None;
     transaction :=
       Some {| upd_transaction :=
                 {| tx_signature := ascii_bytes "sig1";
                    tx_message :=
                      {| accountKeys :=
                           map ascii_bytes
                               [PUMPFUN_PROGRAM; "A"; "k2"; "B"; "k4"; "k5";
                                "k6"; "k7"; "C"];
                         instructions :=
                           [{| programIdIndex := 0;
                               accounts := [1; 2; 3; 4; 5; 6; 7; 8];
                               data := createPayload |}] |};
                    tx_meta_err := Some "InstructionError" |};
               upd_slot := 42 |};
     filters := Some ["pumpfun"] |}.

(** The wire form of one string of a create instruction: the length as a
    32-bit little-endian integer, then the bytes of the text. *)
Definition encodeString (text : list byte) : Buf.Buffer :=
  Buf.writeUInt32LE (N.of_nat (length text)) ++ text.

(** The SIGINT handler's
    [uptime = Math.floor((Date.now() - stats.startTime) / 1000)], printed
    as [Math.floor(uptime / 60)] minutes and [uptime % 60] seconds. *)
Definition uptimeOf (startTime now : Z) : Z := ((now - startTime) / 1000)%Z.
Definition uptimeMinutes (uptime : Z) : Z := (uptime / 60)%Z.
Definition uptimeSeconds (uptime : Z) : Z := Z.rem uptime 60.

(** The first seven bytes of the create discriminator and nothing else. *)
Definition shortInstruction : Instruction :=
  {| programIdIndex := 0;
     accounts := [];
     data := [x18; x1e; xc8; x28; x05; x1c; x07] |}.

(** Three keys and one Pump.fun instruction over them. *)
Definition sampleTxMessage (programIdx : nat) (accountIndices : list nat)
  : TxMessage :=
  {| accountKeys := map ascii_bytes ["A"; "B"; "C"];
     instructions :=
       [{| programIdIndex := programIdx;
           accounts := accountIndices;
           data := createPayload |}] |}.

End MintMonitor.

(** ** The Pump.fun migration listener (class PumpFunMigrationListener) *)

Module MigrationListener.

Definition MIGRATION_ACCOUNT : string :=
  "39azUYFWPz3VHgKCf3VChUwbpURdCHRxjWVowf5jUJjg".
Definition RAYDIUM_PROGRAM : string :=
  "675kPX9MHTjS2zt1qfr1NYHuzeLXfQM9H24wFSUt1Mp8".
Definition PUMPFUN_PROGRAM : string :=
  "6EF8rrecthR5Dkzon8Nwu78hRvfCKubJ14M5uBEwF6P".

(** A [PublicKey] is represented by its base58 text, the value of
    [toString()], which is all the listener ever takes from it. *)
Definition PublicKey : Type := string.
Definition toString (k : PublicKey) : string := k.

(** An instruction as the RPC node returns it; a field that is absent on
    the JavaScript object is [None]. *)
Record Instruction : Type := mkInstruction {
  programIdIndex : option nat;
  programId : option PublicKey;
  accounts : option (list nat)
}.

Record Message : Type := mkMessage {
  addressTableLookups : bool;
  staticAccountKeys : option (list PublicKey);
  accountKeys : option (list PublicKey);
  compiledInstructions : option (list Instruction);
  instructions : option (list Instruction)
}.

Record Tx : Type := mkTx {
  message : Message;
  slot : N;
  blockTime : option Z
}.

Inductive MigrationData : Type :=
| Raydium (signature : string) (slot : N) (blockTime : option Z)
          (poolAddress tokenAddress quoteMint lpMint : string)
| PumpSwap (signature : string) (slot : N) (blockTime : option Z)
           (tokenAddress bondingCurve destination : string).

(** [value] of a [logsNotification] *)
Record LogValue : Type := mkLogValue {
  signature : string;
  err : option string;
  logs : list string
}.

Inductive WsMessage : Type :=
| SubscriptionAck (result : N)
| LogsNotification (value : LogValue)
| OtherMessage.

Record Listener : Type := mkListener {
  subscriptionId : option N;
  isConnected : bool;
  reconnectAttempts : nat;
  maxReconnectAttempts : nat;
  raydiumMigrationCount : nat;
  pumpswapMigrationCount : nat;
  migrations : list MigrationData;
  totalLogsReceived : nat
}.

(** [constructor()] *)
Definition new : Listener :=
  {| subscriptionId := None;
     isConnected := false;
     reconnectAttempts := 0;
     maxReconnectAttempts := 10;
     raydiumMigrationCount := 0;
     pumpswapMigrationCount := 0;
     migrations := [];
     totalLogsReceived := 0 |}.

Inductive effect : Type :=
| SendLogsSubscribe (mentions : string)
| SetTimeoutConnect (delay : Z)
| ProcessExit (code : Z)
| Sleep (ms : Z)
| GetTransaction (signature : string)
| DisplayMigration (data : MigrationData)
| LogSkippedFailed
| LogNotMigration
| LogNotFound
| LogError (e : exn).

(** *** Connection life cycle *)

Definition handleOpen (l : Listener) : Listener * list effect :=
  ({| subscriptionId := subscriptionId l;
      isConnected := true;
      reconnectAttempts := 0;
      maxReconnectAttempts := maxReconnectAttempts l;
      raydiumMigrationCount := raydiumMigrationCount l;
      pumpswapMigrationCount := pumpswapMigrationCount l;
      migrations := migrations l;
      totalLogsReceived := totalLogsReceived l |},
   [SendLogsSubscribe MIGRATION_ACCOUNT]).

(** [Math.min(1000 * Math.pow(2, attempts), 30000)] *)
Definition reconnectDelay (attempts : nat) : Z :=
  Z.min (1000 * 2 ^ Z.of_nat attempts) 30000.

Definition handleClose (l : Listener) : Listener * list effect :=
  if (reconnectAttempts l <? maxReconnectAttempts l)%nat then
    let attempts := S (reconnectAttempts l) in
    let delay := reconnectDelay attempts in
    ({| subscriptionId := subscriptionId l;
        isConnected := false;
        reconnectAttempts := attempts;
        maxReconnectAttempts := maxReconnectAttempts l;
        raydiumMigrationCount := raydiumMigrationCount l;
        pumpswapMigrationCount := pumpswapMigrationCount l;
        migrations := migrations l;
        totalLogsReceived := totalLogsReceived l |},
     [SetTimeoutConnect delay])
  else
    ({| subscriptionId := subscriptionId l;
        isConnected := false;
        reconnectAttempts := reconnectAttempts l;
        maxReconnectAttempts := maxReconnectAttempts l;
        raydiumMigrationCount := raydiumMigrationCount l;
        pumpswapMigrationCount := pumpswapMigrationCount l;
        migrations := migrations l;
        totalLogsReceived := totalLogsReceived l |},
     [ProcessExit 1]).

(** *** Extraction of the migration from a fetched transaction *)

(** [accountKeys[i]] on a possibly undefined array *)
Definition keyAt (accountKeys : option (list PublicKey)) (i : nat)
  : completion (option PublicKey) :=
  match accountKeys with
  | None => Throw TypeError
  | Some keys => Return (keys !! i)
  end.

(** [accountKeys[i].toString()] *)
Definition keyTextAt (accountKeys : option (list PublicKey)) (i : nat)
  : completion string :=
  k ← keyAt accountKeys i;
  match k with
  | Some key => Return (toString key)
  | None => Throw TypeError
  end.

(** [accountKeys[i] ? accountKeys[i].toString() : "Unknown"] *)
Definition keyTextOrUnknown (accountKeys : option (list PublicKey)) (i : nat)
  : completion string :=
  k ← keyAt accountKeys i;
  mret (match k with Some key => toString key | None => "Unknown" end).

(** The program of one instruction, as the loop body computes it. *)
Definition programOf (accountKeys : option (list PublicKey))
           (instruction : Instruction) : completion (option PublicKey) :=
  match programIdIndex instruction with
  | Some idx => keyAt accountKeys idx
  | None => Return (programId instruction)
  end.

Definition isProgram (programId : option PublicKey) (program : string) : bool :=
  match programId with
  | Some p => String.eqb (toString p) program
  | None => false
  end.

(** [accounts[i]] inside the Raydium branch *)
Definition accountIndex (accounts : list nat) (i : nat) : completion nat :=
  match accounts !! i with
  | Some a => Return a
  | None => Throw TypeError
  end.

(** The body of the [for (const instruction of instructions)] loop:
    [Return None] is falling through to the next instruction. *)
Definition extractFromInstruction (tx : Tx) (signature : string)
           (accountKeys : option (list PublicKey)) (instruction : Instruction)
  : completion (option MigrationData) :=
  programId ← programOf accountKeys instruction;
  if isProgram programId RAYDIUM_PROGRAM then
    match accounts instruction with
    | None => Return None
    | Some accounts =>
        if (length accounts <? 7)%nat then Return None
        else
          a1 ← accountIndex accounts 1;
          poolAddress ← keyTextAt accountKeys a1;
          a5 ← accountIndex accounts 5;
          tokenAddress ← keyTextAt accountKeys a5;
          a6 ← accountIndex accounts 6;
          quoteMint ← keyTextAt accountKeys a6;
          a4 ← accountIndex accounts 4;
          lpMint ← keyTextAt accountKeys a4;
          mret (Some (Raydium signature (slot tx) (blockTime tx)
                              poolAddress tokenAddress quoteMint lpMint))
    end
  else if isProgram programId PUMPFUN_PROGRAM then
    tokenAddress ← keyTextOrUnknown accountKeys 2;
    bondingCurve ← keyTextOrUnknown accountKeys 1;
    mret (Some (PumpSwap signature (slot tx) (blockTime tx)
                         tokenAddress bondingCurve "PumpSwap"))
  else Return None.

Fixpoint scanInstructions (tx : Tx) (signature : string)
         (accountKeys : option (list PublicKey)) (rest : list Instruction)
  : completion (option MigrationData) :=
  match rest with
  | [] => Return None
  | instruction :: rest' =>
      r ← extractFromInstruction tx signature accountKeys instruction;
      match r with
      | Some data => Return (Some data)
      | None => scanInstructions tx signature accountKeys rest'
      end
  end.

(** [a || b] on possibly undefined fields *)
Definition orElse {A : Type} (a b : option A) : option A :=
  match a with Some _ => a | None => b end.

(** The key list and the instruction list the extractor settles on. *)
Definition accountKeysOf (m : Message) : option (list PublicKey) :=
  if addressTableLookups m
  then orElse (staticAccountKeys m) (accountKeys m)
  else accountKeys m.

Definition instructionsOf (m : Message) : option (list Instruction) :=
  if addressTableLookups m
  then orElse (compiledInstructions m) (instructions m)
  else instructions m.

Definition extractMigrationData_body (tx : Tx) (signature : string)
  : completion (option MigrationData) :=
  let accountKeys := accountKeysOf (message tx) in
  match instructionsOf (message tx) with
  | None => Throw TypeError
  | Some instructions => scanInstructions tx signature accountKeys instructions
  end.

(** [extractMigrationData(tx, signature)]: the [catch] turns every
    exception into the final [return null]. *)
Definition extractMigrationData (tx : Tx) (signature : string)
  : option MigrationData :=
  match extractMigrationData_body tx signature with
  | Return r => r
  | Throw _ => None
  end.

(** *** Log handling and the deferred fetch *)

Definition recordMigration (l : Listener) (data : MigrationData) : Listener :=
  {| subscriptionId := subscriptionId l;
     isConnected := isConnected l;
     reconnectAttempts := reconnectAttempts l;
     maxReconnectAttempts := maxReconnectAttempts l;
     raydiumMigrationCount :=
       match data with
       | Raydium _ _ _ _ _ _ _ => S (raydiumMigrationCount l)
       | PumpSwap _ _ _ _ _ _ => raydiumMigrationCount l
       end;
     pumpswapMigrationCount :=
       match data with
       | Raydium _ _ _ _ _ _ _ => pumpswapMigrationCount l
       | PumpSwap _ _ _ _ _ _ => S (pumpswapMigrationCount l)
       end;
     migrations := migrations l ++ [data];
     totalLogsReceived := totalLogsReceived l |}.

Definition countLog (l : Listener) : Listener :=
  {| subscriptionId := subscriptionId l;
     isConnected := isConnected l;
     reconnectAttempts := reconnectAttempts l;
     maxReconnectAttempts := maxReconnectAttempts l;
     raydiumMigrationCount := raydiumMigrationCount l;
     pumpswapMigrationCount := pumpswapMigrationCount l;
     migrations := migrations l;
     totalLogsReceived := S (totalLogsReceived l) |}.

Definition setSubscriptionId (l : Listener) (id : N) : Listener :=
  {| subscriptionId := Some id;
     isConnected := isConnected l;
     reconnectAttempts := reconnectAttempts l;
     maxReconnectAttempts := maxReconnectAttempts l;
     raydiumMigrationCount := raydiumMigrationCount l;
     pumpswapMigrationCount := pumpswapMigrationCount l;
     migrations := migrations l;
     totalLogsReceived := totalLogsReceived l |}.

Definition hasMigration (logs : list string) : bool :=
  existsb (fun log => includes log "Instruction: Migrate"
                      || includes log "migrate"
                      || includes log "initialize2") logs.

Section Rpc.

(** [connection.getTransaction(signature, ...)]: the node's answer, a
    transaction, [null], or a rejected promise. *)
Variable getTransaction : string -> completion (option Tx).

Definition fetchAndProcessTransaction (l : Listener) (signature : string)
  : Listener * list effect :=
  match getTransaction signature with
  | Throw e => (l, [Sleep 1000; GetTransaction signature; LogError e])
  | Return None => (l, [Sleep 1000; GetTransaction signature; LogNotFound])
  | Return (Some tx) =>
      match extractMigrationData tx signature with
      | Some migrationData =>
          (recordMigration l migrationData,
           [Sleep 1000; GetTransaction signature;
            DisplayMigration migrationData])
      | None => (l, [Sleep 1000; GetTransaction signature])
      end
  end.

Definition processLog (l : Listener) (value : LogValue)
  : Listener * list effect :=
  let l := countLog l in
  match err value with
  | Some _ => (l, [LogSkippedFailed])
  | None =>
      if hasMigration (logs value)
      then fetchAndProcessTransaction l (signature value)
      else (l, [LogNotMigration])
  end.

(** [handleMessage(data)]: an acknowledgement is a message whose
    [result] is truthy and that has no [params], so a result of 0 is
    none and leaves [subscriptionId] as it was. *)
Definition handleMessage (l : Listener) (m : WsMessage)
  : Listener * list effect :=
  match m with
  | SubscriptionAck id =>
      if (id =? 0)%N then (l, []) else (setSubscriptionId l id, [])
  | LogsNotification value => processLog l value
  | OtherMessage => (l, [])
  end.

(** The messages of one connection, handled in arrival order. *)
Fixpoint handleMessages (l : Listener) (ms : list WsMessage)
  : Listener * list effect :=
  match ms with
  | [] => (l, [])
  | m :: ms' =>
      let '(l1, out1) := handleMessage l m in
      let '(l2, out2) := handleMessages l1 ms' in
      (l2, out1 ++ out2)
  end.

End Rpc.

(** How often the trace asks the node for [signature]. *)
Definition fetchCount (signature : string) (out : list effect) : nat :=
  length (List.filter
            (fun e => match e with
                      | GetTransaction s => String.eqb s signature
                      | _ => false
                      end) out).

(** The migration events a trace reports. *)
Definition eventsOf (out : list effect) : list MigrationData :=
  omap (fun e => match e with DisplayMigration d => Some d | _ => None end)
       out.

(** *** The heartbeat *)

(** [checkRunning()]: the runtime in whole seconds and its split into
    hours, minutes and seconds, as the heartbeat line prints them. *)
Definition runtimeOf (startTime now : Z) : Z := ((now - startTime) / 1000)%Z.
Definition runtimeHours (runtime : Z) : Z := (runtime / 3600)%Z.
Definition runtimeMinutes (runtime : Z) : Z := (Z.rem runtime 3600 / 60)%Z.
Definition runtimeSeconds (runtime : Z) : Z := Z.rem runtime 60.

(** *** Runs of events *)

(** [n] closes in a row, with no open in between. *)
Fixpoint closeTimes (n : nat) (l : Listener) : Listener * list effect :=
  match n with
  | O => (l, [])
  | S n' =>
      let '(l1, out1) := handleClose l in
      let '(l2, out2) := closeTimes n' l1 in
      (l2, out1 ++ out2)
  end.

Definition isRaydium (data : MigrationData) : bool :=
  match data with
  | Raydium _ _ _ _ _ _ _ => true
  | PumpSwap _ _ _ _ _ _ => false
  end.

(** The two counters agree with the list of recorded migrations. *)
Definition countersAgree (l : Listener) : Prop :=
  raydiumMigrationCount l = length (List.filter isRaydium (migrations l))
  /\ pumpswapMigrationCount l
     = length (List.filter (fun d => negb (isRaydium d)) (migrations l)).

Definition isLogsNotification (m : WsMessage) : bool :=
  match m with
  | LogsNotification _ => true
  | _ => false
  end.

(** *** Vocabulary for the statements *)

(** A delivery that leads to a fetch of [s]: a log notification for [s]
    that is not failed and carries one of the migration phrases. *)
Definition triggersFetch (s : string) (m : WsMessage) : bool :=
  match m with
  | LogsNotification value =>
      String.eqb (signature value) s
      && match err value with Some _ => false | None => true end
      && hasMigration (logs value)
  | _ => false
  end.

Definition deliveriesFor (s : string) (ms : list WsMessage) : nat :=
  length (List.filter (triggersFetch s) ms).

(** An instruction that settles the result: its program is the Raydium
    program and it references at least 7 accounts, or its program is the
    Pump.fun program. *)
Definition settles (keys : list PublicKey) (instruction : Instruction) : bool :=
  match programOf (Some keys) instruction with
  | Return p =>
      (isProgram p RAYDIUM_PROGRAM
       && match accounts instruction with
          | Some a => (7 <=? length a)%nat
          | None => false
          end)
      || isProgram p PUMPFUN_PROGRAM
  | Throw _ => false
  end.

(** *** Worked inputs *)

Definition migrateLog (s : string) : WsMessage :=
  LogsNotification
    {| signature := s;
       err := None;
       logs := ["Program log: Instruction: Migrate"] |}.

Definition failedMigrateLog (s : string) : WsMessage :=
  LogsNotification
    {| signature := s;
       err := Some "InstructionError";
       logs := ["Program log: Instruction: Migrate"] |}.

Definition notFound : string -> completion (option Tx) :=
  fun _ => Return None.

Definition otherInstruction : Instruction :=
  {| programIdIndex := Some 0; programId := None; accounts := Some [1; 2] |}.
Definition pumpInstruction : Instruction :=
  {| programIdIndex := Some 3; programId := None; accounts := Some [] |}.
Definition raydiumInstruction : Instruction :=
  {| programIdIndex := Some 4; programId := None;
     accounts := Some [0; 1; 2; 0; 1; 2; 0] |}.

Definition sampleKeys : list PublicKey :=
  ["ComputeBudget111111111111111111111111111111"; "curve"; "token";
   PUMPFUN_PROGRAM; RAYDIUM_PROGRAM].

Definition sampleTx (instrs : list Instruction) : Tx :=
  {| message :=
       {| addressTableLookups := false;
          staticAccountKeys := None;
          accountKeys := Some sampleKeys;
          compiledInstructions := None;
          instructions := Some instrs |};
     slot := 7;
     blockTime := Some 1700000000%Z |}.

(** A Raydium instruction whose second account index points past the keys. *)
Definition raydiumBadInstruction : Instruction :=
  {| programIdIndex := Some 4; programId := None;
     accounts := Some [0; 9; 2; 0; 1; 2; 0] |}.

End MigrationListener.

(** ** The high value SOL transfer monitor (monitorHighValueTransfers) *)

Module TransferMonitor.

Definition SYSTEM_PROGRAM : string := "11111111111111111111111111111111".

(** Minimum transfer amount in SOL to alert on *)
Definition MIN_TRANSFER_AMOUNT : Q := 100.

Definition LAMPORTS_PER_SOL : Q := 1000000000.

(** [Number(bigint)]: the nearest double, ties to even.  Integers below
    2^53 are kept as they are. *)
Definition toNumber (n : N) : N :=
  if (n <? 2 ^ 53)%N then n
  else
    let k := (N.log2 n - 52)%N in
    let q := N.shiftr n k in
    let r := (n - N.shiftl q k)%N in
    let half := (2 ^ (k - 1))%N in
    let q' := if (half <? r)%N || ((r =? half)%N && N.odd q)
              then (q + 1)%N else q in
    N.shiftl q' k.

Record Stats : Type := mkStats {
  totalTransfers : nat;
  totalVolume : N;
  largestTransfer : N;
  largestTransferTx : option string
}.

Record Instruction : Type := mkInstruction {
  programIdIndex : nat;
  accounts : list nat;
  data : Buf.Buffer
}.

Record TxMessage : Type := mkTxMessage {
  accountKeys : list (list byte);
  instructions : list Instruction
}.

Record TxInfo : Type := mkTxInfo {
  tx_signature : list byte;
  tx_message : TxMessage;
  tx_meta_err : option string
}.

Record TxUpdate : Type := mkTxUpdate {
  upd_transaction : TxInfo;
  upd_slot : N
}.

Record StreamMessage : Type := mkStreamMessage {
  pong : option N;
  transaction : option TxUpdate;
  filters : option (list string)
}.

Record TransferData : Type := mkTransferData {
  amount : N;
  from : string;
  to : string
}.

Record Transfer : Type := mkTransfer {
  tr_data : TransferData;
  tr_signature : string;
  tr_slot : N
}.

Inductive effect : Type :=
| WritePing (id : N)
| DisplayTransfer (t : Transfer)
| LogError (e : exn).

(** [transferData.amount / 1_000_000_000].  The quotient is kept exact:
    the comparison with the threshold below gives the same answer on the
    rounded double, because rounding is monotone, 100 is a double, and an
    integer amount below 10^11 lamports is at least 10^-9 SOL short of it. *)
Definition solAmountOf (amount : N) : Q :=
  inject_Z (Z.of_N amount) / LAMPORTS_PER_SOL.

(** [solAmount >= MIN_TRANSFER_AMOUNT] *)
Definition meetsThreshold (amount : N) : bool :=
  Qle_bool MIN_TRANSFER_AMOUNT (solAmountOf amount).

Section Codecs.

Variable bs58_encode : list byte -> string.

Definition encodeKey (accountKeys : list (list byte)) (idx : nat)
  : completion string :=
  match accountKeys !! idx with
  | Some key => Return (bs58_encode key)
  | None => Throw TypeError
  end.

Definition parseTransferInstruction (instruction : Instruction)
           (accountKeys : list (list byte)) : option TransferData :=
  let data := data instruction in
  if (length data <? 12)%nat then None
  else
    match Buf.readUInt32LE data 0 with
    | Throw _ => None
    | Return instructionType =>
        if negb (instructionType =? 2)%N then None
        else
          match Buf.readBigUInt64LE data 4 with
          | Throw _ => None
          | Return lamports =>
              match accounts instruction with
              | i0 :: i1 :: _ =>
                  try_or_null (
                    fromAccount ← encodeKey accountKeys i0;
                    toAccount ← encodeKey accountKeys i1;
                    mret {| amount := toNumber lamports;
                            from := fromAccount;
                            to := toAccount |})
              | _ => None
              end
          end
    end.

Definition displayTransfer (stats : Stats) (t : Transfer)
  : Stats * list effect :=
  let a := amount (tr_data t) in
  ({| totalTransfers := S (totalTransfers stats);
      totalVolume := toNumber (totalVolume stats + a);
      largestTransfer :=
        if (largestTransfer stats <? a)%N then a else largestTransfer stats;
      largestTransferTx :=
        if (largestTransfer stats <? a)%N then Some (tr_signature t)
        else largestTransferTx stats |},
   [DisplayTransfer t]).

(** One turn of the [for (const instruction of instructions)] loop:
    the transfer to display, if any. *)
Definition classifyInstruction (accountKeys : list (list byte))
           (instruction : Instruction) : completion (option TransferData) :=
  let programIdx := programIdIndex instruction in
  programId ← encodeKey accountKeys programIdx;
  if negb (String.eqb programId SYSTEM_PROGRAM) then mret None
  else
    match parseTransferInstruction instruction accountKeys with
    | None => mret None
    | Some transferData =>
        if meetsThreshold (amount transferData)
        then mret (Some transferData)
        else mret None
    end.

Fixpoint scanInstructions (accountKeys : list (list byte))
         (signature : string) (slot : N)
         (rest : list Instruction) (stats : Stats) : Stats * list effect :=
  match rest with
  | [] => (stats, [])
  | instruction :: rest' =>
      match classifyInstruction accountKeys instruction with
      | Throw e => (stats, [LogError e])
      | Return None => scanInstructions accountKeys signature slot rest' stats
      | Return (Some transferData) =>
          let '(stats1, out1) :=
            displayTransfer stats
              {| tr_data := transferData;
                 tr_signature := signature;
                 tr_slot := slot |} in
          let '(stats2, out2) :=
            scanInstructions accountKeys signature slot rest' stats1 in
          (stats2, out1 ++ out2)
      end
  end.

(** [stream.on("data", (message) => { ... })] *)
Definition onData (message : StreamMessage) (stats : Stats)
  : Stats * list effect :=
  match pong message with
  | Some id => (stats, [WritePing id])
  | None =>
      match transaction message, filters message with
      | Some upd, Some fs =>
          if list_includes fs "sol_transfers" then
            let tx := upd_transaction upd in
            let signature := bs58_encode (tx_signature tx) in
            let txMessage := tx_message tx in
            scanInstructions (accountKeys txMessage) signature
                             (upd_slot upd) (instructions txMessage) stats
          else (stats, [])
      | _, _ => (stats, [])
      end
  end.

Definition transfersOf (out : list effect) : list Transfer :=
  omap (fun e => match e with DisplayTransfer t => Some t | _ => None end)
       out.

End Codecs.

(** The wire form of a System Program transfer: the instruction type 2 as
    a 32-bit little-endian integer, then the lamports as a 64-bit one. *)
Definition encodeTransfer (lamports : N) : Buf.Buffer :=
  Buf.writeUInt32LE 2 ++ Buf.writeBigUInt64LE lamports.

(** 100 SOL in lamports *)
Definition THRESHOLD_LAMPORTS : N := 100000000000.

(** *** Worked inputs *)

(** [type = 2] followed by the lamports, little-endian. *)
Definition transferPayload (lamports : list byte) : Buf.Buffer :=
  [x02; x00; x00; x00] ++ lamports.

(** 100_000_000_000 lamports, that is 100 SOL *)
Definition lamports100SOL : list byte :=
  [x00; xe8; x76; x48; x17; x00; x00; x00].

(** 99_999_999_999 lamports *)
Definition lamportsJustBelow : list byte :=
  [xff; xe7; x76; x48; x17; x00; x00; x00].

Definition sampleKeys : list (list byte) :=
  map ascii_bytes ["alice"; "bob"; SYSTEM_PROGRAM].

Definition transferInstruction (lamports : list byte) : Instruction :=
  {| programIdIndex := 2;
     accounts := [0; 1];
     data := transferPayload lamports |}.

Definition transferMessage (lamports : list byte) (status : option string)
  : StreamMessage :=
  {| pong := None;
     transaction :=
       Some {| upd_transaction :=
                 {| tx_signature := ascii_bytes "sig1";
                    tx_message :=
                      {| accountKeys := sampleKeys;
                         instructions := [transferInstruction lamports] |};
                    tx_meta_err := status |};
               upd_slot := 42 |};
     filters := Some ["sol_transfers"] |}.

End TransferMonitor.

(** ** The Hyperliquid whale tracker (class HyperliquidWhaleTracker) *)

Module WhaleTracker.

(** A JavaScript number: a finite double, read as a rational, or NaN. *)
Definition number : Type := option Q.

(** [a >= b]: false as soon as one side is NaN. *)
Definition ge (a b : number) : bool :=
  match a, b with
  | Some x, Some y => Qle_bool y x
  | _, _ => false
  end.

(** [x || d] for a number: the default replaces NaN and zero. *)
Definition numberOr (x : number) (d : Q) : Q :=
  match x with
  | Some q => if Qeq_bool q 0 then d else q
  | None => d
  end.

(** [s || d] for a string that may be undefined or empty. *)
Definition stringOr (s : option string) (d : string) : string :=
  match s with
  | Some EmptyString | None => d
  | Some v => v
  end.

(** [s || null] for a string and [n || null] for a number that may be
    undefined: the empty string and zero become null. *)
Definition stringOrNull (s : option string) : option string :=
  match s with
  | Some EmptyString | None => None
  | Some v => Some v
  end.

Definition idOrNull (n : option N) : option N :=
  match n with
  | Some 0%N | None => None
  | Some v => Some v
  end.

(** [s.split(",")] *)
Fixpoint splitComma (s : string) (cur : string) : list string :=
  match s with
  | EmptyString => [cur]
  | String c s' =>
      if Ascii.eqb c ","%char then cur :: splitComma s' EmptyString
      else splitComma s' (cur +:+ String c EmptyString)
  end.

(** [process.env]; a numeric variable is given by its [Number(...)]. *)
Record Env : Type := mkEnv {
  env_HYPEREVM_WSS : option string;
  env_WHALE_THRESHOLD_USD : number;
  env_WHALE_THRESHOLD_SIZE : number;
  env_TELEGRAM_BOT_TOKEN : option string;
  env_TELEGRAM_CHAT_ID : option string;
  env_TELEGRAM_BATCH_ALERTS : option string;
  env_TELEGRAM_BATCH_INTERVAL : number;
  env_TRACKED_SYMBOLS : option string
}.

Record Config : Type := mkConfig {
  HYPEREVM_WSS : option string;
  WHALE_THRESHOLD_USD : Q;
  WHALE_THRESHOLD_SIZE : Q;
  TELEGRAM_BOT_TOKEN : string;
  TELEGRAM_CHAT_ID : string;
  TELEGRAM_BATCH_ALERTS : bool;
  TELEGRAM_BATCH_INTERVAL : Q;
  TRACKED_SYMBOLS : list string
}.

Definition CONFIG (env : Env) : Config :=
  {| HYPEREVM_WSS := env_HYPEREVM_WSS env;
     WHALE_THRESHOLD_USD := numberOr (env_WHALE_THRESHOLD_USD env) 100000;
     WHALE_THRESHOLD_SIZE := numberOr (env_WHALE_THRESHOLD_SIZE env) 50;
     TELEGRAM_BOT_TOKEN := stringOr (env_TELEGRAM_BOT_TOKEN env) "";
     TELEGRAM_CHAT_ID := stringOr (env_TELEGRAM_CHAT_ID env) "";
     TELEGRAM_BATCH_ALERTS :=
       match env_TELEGRAM_BATCH_ALERTS env with
       | Some v => negb (String.eqb v "false")
       | None => true
       end;
     TELEGRAM_BATCH_INTERVAL :=
       numberOr (env_TELEGRAM_BATCH_INTERVAL env) (60 * 10000);
     TRACKED_SYMBOLS :=
       splitComma (stringOr (env_TRACKED_SYMBOLS env)
                            "BTC,ETH,SOL,ARB,AVAX,HYPE") EmptyString |}.

Record WhaleProfile : Type := mkWhaleProfile {
  w_address : string;
  w_totalVolume : number;
  w_tradeCount : nat;
  w_firstSeen : Z;
  w_lastSeen : Z;
  w_coins : gset string
}.

Record Trade : Type := mkTrade {
  coin : string;
  side : string;
  px : number;
  sz : number;
  time : Z;
  user : option string;
  hash : option string;
  tid : option N
}.

(** The object [analyzeTrade] hands to [notifyWhaleTrade]. *)
Record TradeNotice : Type := mkTradeNotice {
  n_coin : string;
  n_side : string;
  n_price : number;
  n_size : number;
  n_value : number;
  n_time : Z;
  n_user : string;
  n_hash : option string;
  n_tradeId : option N
}.

(** An element of [pendingAlerts], with the fields [sendBatchedAlerts] reads. *)
Record PendingAlert : Type := mkPendingAlert {
  a_value : number;
  a_user : option string;
  a_emoji : string;
  a_sideText : string;
  a_coin : string
}.

(** A Telegram text, by the data its template is filled with. *)
Inductive TelegramMessage : Type :=
| WhaleTradeAlert (trade : TradeNotice)
| WhaleActivityBatch (trades : nat) (totalValue : number)
                     (alerts : list PendingAlert) (now : Z).

Inductive Connection : Type :=
| hyperevm
| hyperliquid.

Record Tracker : Type := mkTracker {
  reconnectAttempts : nat;
  maxReconnectAttempts : nat;
  whaleAddresses : gmap string WhaleProfile;
  tradeCount : nat;
  telegramQueue : list TelegramMessage;
  isSendingTelegram : bool;
  lastTelegramSent : Z;
  TELEGRAM_DELAY : Z;
  pendingAlerts : list PendingAlert;
  batchTimer : option nat;
  (** the local [message] of a [processTelegramQueue] call that is
      suspended at one of its [await]s *)
  inFlight : option TelegramMessage
}.

(** [constructor()] *)
Definition new : Tracker :=
  {| reconnectAttempts := 0;
     maxReconnectAttempts := 5;
     whaleAddresses := ∅;
     tradeCount := 0;
     telegramQueue := [];
     isSendingTelegram := false;
     lastTelegramSent := 0;
     TELEGRAM_DELAY := 1500;
     pendingAlerts := [];
     batchTimer := None;
     inFlight := None |}.

Definition set_reconnectAttempts (n : nat) (t : Tracker) : Tracker :=
  mkTracker n (maxReconnectAttempts t) (whaleAddresses t) (tradeCount t)
            (telegramQueue t) (isSendingTelegram t) (lastTelegramSent t)
            (TELEGRAM_DELAY t) (pendingAlerts t) (batchTimer t) (inFlight t).

Definition set_whaleAddresses (m : gmap string WhaleProfile) (t : Tracker)
  : Tracker :=
  mkTracker (reconnectAttempts t) (maxReconnectAttempts t) m (tradeCount t)
            (telegramQueue t) (isSendingTelegram t) (lastTelegramSent t)
            (TELEGRAM_DELAY t) (pendingAlerts t) (batchTimer t) (inFlight t).

Definition set_tradeCount (n : nat) (t : Tracker) : Tracker :=
  mkTracker (reconnectAttempts t) (maxReconnectAttempts t) (whaleAddresses t)
            n (telegramQueue t) (isSendingTelegram t) (lastTelegramSent t)
            (TELEGRAM_DELAY t) (pendingAlerts t) (batchTimer t) (inFlight t).

Definition set_telegramQueue (q : list TelegramMessage) (t : Tracker)
  : Tracker :=
  mkTracker (reconnectAttempts t) (maxReconnectAttempts t) (whaleAddresses t)
            (tradeCount t) q (isSendingTelegram t) (lastTelegramSent t)
            (TELEGRAM_DELAY t) (pendingAlerts t) (batchTimer t) (inFlight t).

Definition set_isSendingTelegram (b : bool) (t : Tracker) : Tracker :=
  mkTracker (reconnectAttempts t) (maxReconnectAttempts t) (whaleAddresses t)
            (tradeCount t) (telegramQueue t) b (lastTelegramSent t)
            (TELEGRAM_DELAY t) (pendingAlerts t) (batchTimer t) (inFlight t).

Definition set_lastTelegramSent (z : Z) (t : Tracker) : Tracker :=
  mkTracker (reconnectAttempts t) (maxReconnectAttempts t) (whaleAddresses t)
            (tradeCount t) (telegramQueue t) (isSendingTelegram t) z
            (TELEGRAM_DELAY t) (pendingAlerts t) (batchTimer t) (inFlight t).

Definition set_pendingAlerts (p : list PendingAlert) (t : Tracker) : Tracker :=
  mkTracker (reconnectAttempts t) (maxReconnectAttempts t) (whaleAddresses t)
            (tradeCount t) (telegramQueue t) (isSendingTelegram t)
            (lastTelegramSent t) (TELEGRAM_DELAY t) p (batchTimer t)
            (inFlight t).

Definition set_batchTimer (b : option nat) (t : Tracker) : Tracker :=
  mkTracker (reconnectAttempts t) (maxReconnectAttempts t) (whaleAddresses t)
            (tradeCount t) (telegramQueue t) (isSendingTelegram t)
            (lastTelegramSent t) (TELEGRAM_DELAY t) (pendingAlerts t) b
            (inFlight t).

Definition set_inFlight (m : option TelegramMessage) (t : Tracker) : Tracker :=
  mkTracker (reconnectAttempts t) (maxReconnectAttempts t) (whaleAddresses t)
            (tradeCount t) (telegramQueue t) (isSendingTelegram t)
            (lastTelegramSent t) (TELEGRAM_DELAY t) (pendingAlerts t)
            (batchTimer t) m.

Inductive effect : Type :=
| ConsoleLog (m : TelegramMessage)
| SubscribeHyperEVMBlocks
| SubscribeTrades
| SubscribeOrderbook
| SetTimeoutReconnect (connection : Connection) (delay : Z)
| LogMaxAttempts (connection : Connection)
| Sleep (ms : Z)
| Post (at_ms : Z) (m : TelegramMessage)
| ScheduleNext (at_ms : Z) (delay : Z).

(** *** Connections *)

(** [this.wsHyperEVM.on('open', ...)] and [this.ws.on('open', ...)] *)
Definition onOpen (connection : Connection) (t : Tracker)
  : Tracker * list effect :=
  match connection with
  | hyperevm => (set_reconnectAttempts 0 t, [SubscribeHyperEVMBlocks])
  | hyperliquid => (t, [SubscribeTrades; SubscribeOrderbook])
  end.

(** [Math.min(1000 * Math.pow(2, attempts), 30000)] *)
Definition reconnectDelay (attempts : nat) : Z :=
  Z.min (1000 * 2 ^ Z.of_nat attempts) 30000.

Definition handleReconnect (connection : Connection) (t : Tracker)
  : Tracker * list effect :=
  if (reconnectAttempts t <? maxReconnectAttempts t)%nat then
    let attempts := S (reconnectAttempts t) in
    let delay := reconnectDelay attempts in
    (set_reconnectAttempts attempts t, [SetTimeoutReconnect connection delay])
  else (t, [LogMaxAttempts connection]).

(** [this.ws.on('close', ...)] of either connection *)
Definition onClose (connection : Connection) (t : Tracker)
  : Tracker * list effect :=
  handleReconnect connection t.

(** *** Telegram queue *)

Definition truthy (s : string) : bool :=
  match s with EmptyString => false | _ => true end.

Definition hasTelegram (cfg : Config) : bool :=
  truthy (TELEGRAM_BOT_TOKEN cfg) && truthy (TELEGRAM_CHAT_ID cfg).

(** [processTelegramQueue()] up to its first [await]: the queue is
    tested, the sending flag is set and the head is shifted out. *)
Definition processTelegramQueue_begin (t : Tracker) : Tracker :=
  match telegramQueue t with
  | [] => set_isSendingTelegram false t
  | message :: rest =>
      set_inFlight (Some message)
        (set_telegramQueue rest (set_isSendingTelegram true t))
  end.

Definition sendTelegramMessage (cfg : Config) (message : TelegramMessage)
           (t : Tracker) : Tracker :=
  if negb (hasTelegram cfg) then t
  else
    let t := set_telegramQueue (telegramQueue t ++ [message]) t in
    if negb (isSendingTelegram t) then processTelegramQueue_begin t else t.

(** The JSON body of an error reply: [description] and
    [parameters?.retry_after]. *)
Record ErrorData : Type := mkErrorData {
  description : option string;
  retry_after : option Z
}.

(** What [fetch] comes back with: a rejected promise, or a response with
    its status and, when it parses, its JSON body. *)
Inductive FetchOutcome : Type :=
| FetchRejected
| FetchResponse (status : Z) (body : option ErrorData).

(** [response.ok] *)
Definition ok (status : Z) : bool := (200 <=? status)%Z && (status <=? 299)%Z.

(** What the world contributes to one run of [processTelegramQueue]:
    the clock when it starts, how long the request takes, the sink's
    answer, and the messages other handlers push while it is suspended. *)
Record Turn : Type := mkTurn {
  turn_now : Z;
  turn_latency : Z;
  turn_outcome : FetchOutcome;
  turn_arrivals : list TelegramMessage
}.

(** [errorData.parameters?.retry_after || 5] *)
Definition retryAfterOf (errorData : ErrorData) : Z :=
  match retry_after errorData with
  | Some r => if (r =? 0)%Z then 5 else r
  | None => 5
  end.

(** The time a request takes is never negative. *)
Definition elapse (ms : Z) : Z := Z.max 0 ms.

(** The delay a Node timer runs for when asked for [ms]: a delay below 1
    or above 2147483647 (2^31 - 1) is set to 1. *)
Definition TIMEOUT_MAX : Z := 2147483647.

Definition timerDelay (ms : Z) : Z :=
  if (ms <? 1)%Z || (TIMEOUT_MAX <? ms)%Z then 1%Z else ms.

(** [processTelegramQueue()] from its first [await] to its end.  [Sleep]
    records the delay a timer is asked for.  The throttle timer is asked
    for at most [TELEGRAM_DELAY] unless the clock went back, and is taken
    to run that long; the retry timer after a 429 is asked for whatever
    the sink sent and runs for [timerDelay] of it. *)
Definition processTelegramQueue_resume (t : Tracker) (turn : Turn)
  : Tracker * list effect :=
  match inFlight t with
  | None => (t, [])
  | Some message =>
      let delay := TELEGRAM_DELAY t in
      let now := turn_now turn in
      let timeSinceLastSend := (now - lastTelegramSent t)%Z in
      let throttle :=
        if (timeSinceLastSend <? delay)%Z
        then [Sleep (delay - timeSinceLastSend)] else [] in
      let posted :=
        if (timeSinceLastSend <? delay)%Z
        then (now + (delay - timeSinceLastSend))%Z else now in
      let answered := (posted + elapse (turn_latency turn))%Z in
      let pushed :=
        set_telegramQueue (telegramQueue t ++ turn_arrivals turn)
                          (set_inFlight None t) in
      match turn_outcome turn with
      | FetchRejected =>
          (pushed,
           throttle ++ [Post posted message; ScheduleNext answered delay])
      | FetchResponse status body =>
          let sent := set_lastTelegramSent answered pushed in
          if ok status then
            (sent,
             throttle ++ [Post posted message; ScheduleNext answered delay])
          else
            match body with
            | None =>
                (sent,
                 throttle ++ [Post posted message; ScheduleNext answered delay])
            | Some errorData =>
                if (status =? 429)%Z then
                  let retryAfter := retryAfterOf errorData in
                  (set_telegramQueue (message :: telegramQueue sent) sent,
                   throttle ++
                   [Post posted message;
                    Sleep (retryAfter * 1000);
                    ScheduleNext (answered + timerDelay (retryAfter * 1000))
                                 delay])
                else
                  (sent,
                   throttle ++
                   [Post posted message; ScheduleNext answered delay])
            end
      end
  end.

(** One whole run of [processTelegramQueue()], as the timer starts it. *)
Definition processTelegramQueue (t : Tracker) (turn : Turn)
  : Tracker * list effect :=
  processTelegramQueue_resume (processTelegramQueue_begin t) turn.

(** The consumer over several turns: a suspended run is resumed, a
    pending timer starts the next run, and an idle consumer stays idle. *)
Definition consumerStep (t : Tracker) (turn : Turn) : Tracker * list effect :=
  match inFlight t with
  | Some _ => processTelegramQueue_resume t turn
  | None =>
      if isSendingTelegram t then processTelegramQueue t turn else (t, [])
  end.

Fixpoint runConsumer (t : Tracker) (turns : list Turn)
  : Tracker * list effect :=
  match turns with
  | [] => (t, [])
  | turn :: rest =>
      let '(t1, out1) := consumerStep t turn in
      let '(t2, out2) := runConsumer t1 rest in
      (t2, out1 ++ out2)
  end.

(** The messages the tracker still holds for the sink. *)
Definition outbox (t : Tracker) : list TelegramMessage :=
  match inFlight t with
  | Some m => m :: telegramQueue t
  | None => telegramQueue t
  end.

(** The messages a trace posts to the sink, in order. *)
Definition postsOf (out : list effect) : list TelegramMessage :=
  omap (fun e => match e with Post _ m => Some m | _ => None end) out.

(** *** Trades *)

Section Doubles.

(** IEEE double multiplication and addition on finite values. *)
Variable fmul : Q -> Q -> Q.
Variable fadd : Q -> Q -> Q.

Definition mul (a b : number) : number :=
  match a, b with
  | Some x, Some y => Some (fmul x y)
  | _, _ => None
  end.

Definition add (a b : number) : number :=
  match a, b with
  | Some x, Some y => Some (fadd x y)
  | _, _ => None
  end.

Definition trackWhaleAddress (now : Z) (address : string) (value : number)
           (coin : string) (t : Tracker) : Tracker :=
  match whaleAddresses t !! address with
  | Some whale =>
      set_whaleAddresses
        (<[address :=
             {| w_address := w_address whale;
                w_totalVolume := add (w_totalVolume whale) value;
                w_tradeCount := S (w_tradeCount whale);
                w_firstSeen := w_firstSeen whale;
                w_lastSeen := now;
                w_coins := w_coins whale ∪ {[coin]} |}]>
           (whaleAddresses t)) t
  | None =>
      set_whaleAddresses
        (<[address :=
             {| w_address := address;
                w_totalVolume := value;
                w_tradeCount := 1;
                w_firstSeen := now;
                w_lastSeen := now;
                w_coins := {[coin]} |}]>
           (whaleAddresses t)) t
  end.

Definition notifyWhaleTrade (cfg : Config) (trade : TradeNotice)
           (t : Tracker) : Tracker * list effect :=
  let message := WhaleTradeAlert trade in
  (if hasTelegram cfg then sendTelegramMessage cfg message t else t,
   [ConsoleLog message]).

(** [user && user !== 'Unknown'] *)
Definition knownUser (user : option string) : option string :=
  match user with
  | Some u => if truthy u && negb (String.eqb u "Unknown") then Some u
              else None
  | None => None
  end.

(** [value >= CONFIG.WHALE_THRESHOLD_USD || size >= CONFIG.WHALE_THRESHOLD_SIZE] *)
Definition isWhaleTrade (cfg : Config) (value size : number) : bool :=
  ge value (Some (WHALE_THRESHOLD_USD cfg))
  || ge size (Some (WHALE_THRESHOLD_SIZE cfg)).

Definition analyzeTrade (cfg : Config) (now : Z) (trade : Trade)
           (t : Tracker) : Tracker * list effect :=
  let price := px trade in
  let size := sz trade in
  let value := mul price size in
  if isWhaleTrade cfg value size then
    let t :=
      match knownUser (user trade) with
      | Some u => trackWhaleAddress now u value (coin trade) t
      | None => t
      end in
    let '(t, out) :=
      notifyWhaleTrade cfg
        {| n_coin := coin trade;
           n_side := side trade;
           n_price := price;
           n_size := size;
           n_value := value;
           n_time := time trade;
           n_user := stringOr (user trade) "Unknown";
           n_hash := stringOrNull (hash trade);
           n_tradeId := idOrNull (tid trade) |} t in
    (set_tradeCount (S (tradeCount t)) t, out)
  else (t, []).

(** [message.data.forEach(trade => this.analyzeTrade(trade))] *)
Fixpoint analyzeTrades (cfg : Config) (now : Z) (trades : list Trade)
         (t : Tracker) : Tracker * list effect :=
  match trades with
  | [] => (t, [])
  | trade :: rest =>
      let '(t1, out1) := analyzeTrade cfg now trade t in
      let '(t2, out2) := analyzeTrades cfg now rest t1 in
      (t2, out1 ++ out2)
  end.

Definition sendBatchedAlerts (cfg : Config) (now : Z) (t : Tracker)
  : Tracker :=
  match pendingAlerts t with
  | [] => set_batchTimer None t
  | _ =>
      let totalValue :=
        fold_left (fun sum alert => add sum (a_value alert))
                  (pendingAlerts t) (Some 0%Q) in
      let trades := length (pendingAlerts t) in
      let message :=
        WhaleActivityBatch trades totalValue (pendingAlerts t) now in
      set_batchTimer None
        (set_pendingAlerts [] (sendTelegramMessage cfg message t))
  end.

End Doubles.

(** *** The order book *)

(** A field of a book level, by what the analysis takes from it: whether
    it is truthy, and its [parseFloat]. *)
Record Field : Type := mkField {
  isTruthy : bool;
  asFloat : number
}.

(** A level is [[price, size]] or an object read through [px] and [sz]
    (a missing field is a falsy one).  A [null] level, on which the loop
    throws and the whole analysis is abandoned, is left out. *)
Inductive Level : Type :=
| LevelArray (price size : Field)
| LevelObject (px sz : Field).

(** [levels[i]]: an array of levels, or something that is not an array. *)
Inductive BookSide : Type :=
| SideLevels (ls : list Level)
| SideOther.

Record BookData : Type := mkBookData {
  book_coin : string;
  book_levels : option (list BookSide)
}.

Inductive OrderSide : Type :=
| BID
| ASK.

Record LargeOrder : Type := mkLargeOrder {
  o_side : OrderSide;
  o_price : number;
  o_size : number;
  o_value : number
}.

Section Orderbook.

Variable fmul : Q -> Q -> Q.

(** The body of [levels[i].forEach(level => ...)]: the order pushed for
    one level, if any. *)
Definition largeOrderOf (cfg : Config) (side : OrderSide) (level : Level)
  : option LargeOrder :=
  let fields :=
    match level with
    | LevelArray price size => Some (price, size)
    | LevelObject px sz =>
        if isTruthy px && isTruthy sz then Some (px, sz) else None
    end in
  match fields with
  | None => None
  | Some (price, size) =>
      let value := mul fmul (asFloat price) (asFloat size) in
      if ge value (Some (WHALE_THRESHOLD_USD cfg))
      then Some {| o_side := side;
                   o_price := asFloat price;
                   o_size := asFloat size;
                   o_value := value |}
      else None
  end.

Definition sideOrders (cfg : Config) (side : OrderSide)
           (levels : option BookSide) : list LargeOrder :=
  match levels with
  | Some (SideLevels ls) => omap (largeOrderOf cfg side) ls
  | _ => []
  end.

(** [analyzeOrderbook(bookData)]: the arguments of the call to
    [notifyWhaleOrder] it makes, if it makes one. *)
Definition analyzeOrderbook (cfg : Config) (bookData : BookData)
  : option (string * list LargeOrder) :=
  match book_levels bookData with
  | None => None
  | Some levels =>
      let largeOrders :=
        sideOrders cfg BID (levels !! 0) ++ sideOrders cfg ASK (levels !! 1) in
      match largeOrders with
      | [] => None
      | _ => Some (book_coin bookData, largeOrders)
      end
  end.

End Orderbook.

(** *** Runs of events *)




(** What can happen to a running tracker: a [trades] message, an open or
    a close of one of the two sockets, a flush of the batch, and a turn of
    the Telegram consumer. *)
Inductive Event : Type :=
| TradesMessage (now : Z) (trades : list Trade)
| SocketOpen (connection : Connection)
| SocketClose (connection : Connection)
| BatchFlush (now : Z)
| ConsumerTurn (turn : Turn).

Section Runs.

Variable fmul : Q -> Q -> Q.
Variable fadd : Q -> Q -> Q.

Definition step (cfg : Config) (t : Tracker) (e : Event) : Tracker :=
  match e with
  | TradesMessage now trades => (analyzeTrades fmul fadd cfg now trades t).1
  | SocketOpen c => (onOpen c t).1
  | SocketClose c => (onClose c t).1
  | BatchFlush now => sendBatchedAlerts fadd cfg now t
  | ConsumerTurn turn => (consumerStep t turn).1
  end.

Definition run (cfg : Config) (t : Tracker) (events : list Event) : Tracker :=
  fold_left (step cfg) events t.

End Runs.

(** The trades of a message that are whale trades. *)
Definition whaleTrades (fmul : Q -> Q -> Q) (cfg : Config)
           (trades : list Trade) : list Trade :=
  List.filter
    (fun trade => isWhaleTrade cfg (mul fmul (px trade) (sz trade)) (sz trade))
    trades.

(** The volumes of a list of trades, added up in arrival order the way
    [totalVolume += value] does. *)
Definition volumeOf (fadd : Q -> Q -> Q) (first : number)
           (values : list number) : number :=
  fold_left (add fadd) values first.

(** The answers that make the consumer put the message back: status 429
    with a body that parses. *)
Definition isRateLimited (outcome : FetchOutcome) : bool :=
  match outcome with
  | FetchResponse status (Some _) => (status =? 429)%Z
  | _ => false
  end.

(** The profile at [address] after some trades of that address. *)
Definition trackAll (fadd : Q -> Q -> Q) (now : Z) (address coin : string)
           (values : list number) (t : Tracker) : Tracker :=
  fold_left (fun t value => trackWhaleAddress fadd now address value coin t)
            values t.

(** Join with commas: the inverse of [split(",")]. *)
Fixpoint joinComma (parts : list string) : string :=
  match parts with
  | [] => EmptyString
  | [p] => p
  | p :: rest => p +:+ "," +:+ joinComma rest
  end.

(** A suspended run holds the sending flag. *)
Definition consistent (t : Tracker) : Prop :=
  inFlight t <> None -> isSendingTelegram t = true.

(** *** Worked inputs *)

(** Telegram credentials set, everything else left to its default. *)
Definition telegramEnv : Env :=
  {| env_HYPEREVM_WSS := None;
     env_WHALE_THRESHOLD_USD := None;
     env_WHALE_THRESHOLD_SIZE := None;
     env_TELEGRAM_BOT_TOKEN := Some "123:token";
     env_TELEGRAM_CHAT_ID := Some "-1001";
     env_TELEGRAM_BATCH_ALERTS := None;
     env_TELEGRAM_BATCH_INTERVAL := None;
     env_TRACKED_SYMBOLS := None |}.

Definition tradeOf (price size : Q) (trader : string) : Trade :=
  {| coin := "BTC";
     side := "B";
     px := Some price;
     sz := Some size;
     time := 1700000000000%Z;
     user := Some trader;
     hash := None;
     tid := None |}.

Definition noticeOf (price size value : Q) (trader : string) : TradeNotice :=
  {| n_coin := "BTC";
     n_side := "B";
     n_price := Some price;
     n_size := Some size;
     n_value := Some value;
     n_time := 1700000000000%Z;
     n_user := trader;
     n_hash := None;
     n_tradeId := None |}.

Definition rateLimited (seconds : Z) : FetchOutcome :=
  FetchResponse 429
    (Some {| description := Some "Too Many Requests";
             retry_after := Some seconds |}).

Definition delivered : FetchOutcome := FetchResponse 200 None.

Definition alertA : TelegramMessage :=
  WhaleTradeAlert (noticeOf 50000 3 150000 "0xabc").
Definition alertB : TelegramMessage :=
  WhaleTradeAlert (noticeOf 60000 2 120000 "0xdef").

(** Two messages waiting and the timer of the consumer pending. *)
Definition queuedTracker : Tracker :=
  set_isSendingTelegram true (set_telegramQueue [alertA; alertB] new).

Definition turnAt (now : Z) (outcome : FetchOutcome) : Turn :=
  {| turn_now := now;
     turn_latency := 200;
     turn_outcome := outcome;
     turn_arrivals := [] |}.

Definition pendingA : PendingAlert :=
  {| a_value := Some 150000%Q;
     a_user := Some "0xabc";
     a_emoji := "B";
     a_sideText := "BUY";
     a_coin := "BTC" |}.

Definition fieldOf (q : Q) : Field :=
  {| isTruthy := true; asFloat := Some q |}.

(** One bid of 50000 x 3 and one ask of 50000 x 1. *)
Definition sampleBook : BookData :=
  {| book_coin := "BTC";
     book_levels :=
       Some [SideLevels [LevelObject (fieldOf 50000) (fieldOf 3)];
             SideLevels [LevelArray (fieldOf 50000) (fieldOf 1)]] |}.

End WhaleTracker.

(** * Properties *)

(** ** Buffers *)

Lemma equals_length (a b : Buf.Buffer) :
  Buf.equals a b = true -> length a = length b.
Proof.
  revert b. induction a as [|x a IH]; intros [|y b]; simpl; try discriminate.
  - reflexivity.
  - intros H. apply andb_prop in H as [_ H]. f_equal. now apply IH.
Qed.

Lemma slice_length (buffer : Buf.Buffer) (start stop : nat) :
  length (Buf.slice buffer start stop)
  = Nat.min (stop - start) (length buffer - start).
Proof. unfold Buf.slice. now rewrite length_take, length_drop. Qed.

Lemma readUInt32LE_returns (buffer : Buf.Buffer) (offset : nat) (v : N) :
  Buf.readUInt32LE buffer offset = Return v -> offset + 4 <= length buffer.
Proof.
  unfold Buf.readUInt32LE. intros H.
  assert (4 <= length (drop offset buffer)) as Hlen.
  { destruct (drop offset buffer) as [|b0 [|b1 [|b2 [|b3 r]]]];
      try discriminate. simpl. lia. }
  rewrite length_drop in Hlen. lia.
Qed.

(** ** The token mint monitor *)

Module MintMonitorProps.
Import MintMonitor.

Section Codecs.

Variable bs58_encode : list byte -> string.
Variable utf8_toString : list byte -> string.

(** Once the length prefix can be read, [decodeString] returns: the
    text is whatever bytes are left, the count is the announced one. *)
Lemma decodeString_after_prefix (buffer : Buf.Buffer) (offset : nat) (L : N) :
  Buf.readUInt32LE buffer offset = Return L ->
  decodeString utf8_toString buffer offset
  = Return {| value :=
                utf8_toString
                  (Buf.slice buffer (offset + 4) (offset + 4 + N.to_nat L));
              bytesRead := 4 + L |}.
Proof. intros H. unfold decodeString. now rewrite H. Qed.

Lemma discriminatorMatch_short (data : Buf.Buffer) :
  length data < 8 -> discriminatorMatch data = false.
Proof.
  intros Hlen. unfold discriminatorMatch.
  destruct (Buf.equals (Buf.slice data 0 8) CREATE_DISCRIMINATOR) eqn:E;
    [|reflexivity].
  apply equals_length in E. rewrite slice_length in E.
  change (length CREATE_DISCRIMINATOR) with 8 in E. lia.
Qed.

(** C9: an instruction whose payload has fewer than 8 bytes never
    matches the create discriminator.  The comparison itself is a total
    boolean and answers false; [isCreateInstruction] therefore never
    answers true on such an instruction, and answers false whenever the
    program index points into the account list. *)
Theorem short_payload_never_matches
        (instruction : Instruction) (accountKeys : list (list byte)) :
  length (data instruction) < 8 ->
  discriminatorMatch (data instruction) = false
  /\ isCreateInstruction bs58_encode instruction accountKeys <> Return true
  /\ (is_Some (accountKeys !! programIdIndex instruction) ->
      isCreateInstruction bs58_encode instruction accountKeys
      = Return false).
Proof.
  intros Hlen. pose proof (discriminatorMatch_short _ Hlen) as Hd.
  split; [exact Hd|].
  unfold isCreateInstruction, encodeKey.
  split.
  - destruct (accountKeys !! programIdIndex instruction); simpl;
      [|discriminate].
    destruct (negb _); simpl; [discriminate|]. rewrite Hd. discriminate.
  - intros [key Hk]. rewrite Hk. simpl.
    destruct (negb _); simpl; [reflexivity|]. now rewrite Hd.
Qed.

Lemma onData_ignores_status (now : Z) (e : option string)
      (m : StreamMessage) (stats : Stats) :
  onData bs58_encode utf8_toString now (withStatus e m) stats
  = onData bs58_encode utf8_toString now m stats.
Proof.
  unfold onData, withStatus. simpl.
  destruct (pong m); [reflexivity|].
  destruct (transaction m) as [upd|]; [|reflexivity].
  destruct (filters m) as [fs|]; reflexivity.
Qed.

End Codecs.

Lemma short_payload_never_matches_witness :
  discriminatorMatch (data shortInstruction) = false
  /\ isCreateInstruction ascii_text shortInstruction
                         [ascii_bytes PUMPFUN_PROGRAM] <> Return true
  /\ (is_Some ([ascii_bytes PUMPFUN_PROGRAM]
                 !! programIdIndex shortInstruction) ->
      isCreateInstruction ascii_text shortInstruction
                          [ascii_bytes PUMPFUN_PROGRAM] = Return false).
Proof.
  apply (short_payload_never_matches ascii_text shortInstruction
                                     [ascii_bytes PUMPFUN_PROGRAM]).
  cbn. lia.
Defined.

(** C1: the mint monitor reports a token mint from a transaction that is
    marked failed. *)
Theorem failed_transaction_reported_as_mint :
  (exists e, tx_meta_err <$> (upd_transaction <$> transaction failedCreate)
             = Some (Some e))
  /\ mintsOf (onData ascii_text ascii_text 0 failedCreate
                     {| totalMints := 0; lastMintTime := None |}).2
     = [ {| tm_metadata := {| name := "Foo"; symbol := "FOO"; uri := "ipfs://x" |};
            tm_accounts := {| mint := Some "A";
                              bondingCurve := Some "B";
                              creator := Some "C" |};
            tm_signature := "sig1";
            tm_slot := 42 |} ].
Proof. split; [eexists; reflexivity|]. vm_compute. reflexivity. Qed.

(** C2: the length prefix announces 3 bytes, 2 remain; [decodeString]
    returns the 2 bytes as the text and reports 7 bytes read. *)
Theorem decodeString_truncated_body :
  let buffer := lengthPrefixed x03 "Fo" in
  Buf.readUInt32LE buffer 0 = Return 3%N
  /\ length buffer < 4 + 3
  /\ decodeString ascii_text buffer 0
     = Return {| value := "Fo"; bytesRead := 7 |}.
Proof. vm_compute. repeat split; lia. Qed.

(** The same inside [parseCreateInstruction]: a payload cut in the middle
    of the last string is parsed as if it were complete. *)
Example parseCreateInstruction_truncated_uri :
  parseCreateInstruction ascii_text
    (CREATE_DISCRIMINATOR ++ lengthPrefixed x03 "Foo"
       ++ lengthPrefixed x03 "FOO" ++ lengthPrefixed x08 "ipfs")
  = Some {| name := "Foo"; symbol := "FOO"; uri := "ipfs" |}.
Proof. vm_compute. reflexivity. Qed.

(** A payload cut inside the length prefix is rejected. *)
Example parseCreateInstruction_truncated_prefix :
  parseCreateInstruction ascii_text
    (CREATE_DISCRIMINATOR ++ lengthPrefixed x03 "Foo" ++ [x03; x00])
  = None.
Proof. vm_compute. reflexivity. Qed.

End MintMonitorProps.

(** ** The migration listener *)

Module MigrationListenerProps.
Import MigrationListener.

Lemma fetchCount_app (s : string) (a b : list effect) :
  fetchCount s (a ++ b) = fetchCount s a + fetchCount s b.
Proof. unfold fetchCount. now rewrite List.filter_app, length_app. Qed.

Lemma eventsOf_app (a b : list effect) :
  eventsOf (a ++ b) = eventsOf a ++ eventsOf b.
Proof. unfold eventsOf. apply omap_app. Qed.

(** *** Reconnection *)



Lemma handleOpen_resets (l : Listener) :
  reconnectAttempts (handleOpen l).1 = 0 /\ isConnected (handleOpen l).1 = true.
Proof. split; reflexivity. Qed.

Lemma handleClose_schedules (l : Listener) (n : nat) :
  reconnectAttempts l = n -> n < maxReconnectAttempts l ->
  reconnectAttempts (handleClose l).1 = S n
  /\ (handleClose l).2 = [SetTimeoutConnect (reconnectDelay (S n))].
Proof.
  intros Hn Hlt. unfold handleClose.
  destruct (Nat.ltb_spec (reconnectAttempts l) (maxReconnectAttempts l));
    [|lia].
  simpl. now rewrite Hn.
Qed.

Lemma handleClose_gives_up (l : Listener) :
  maxReconnectAttempts l <= reconnectAttempts l ->
  (handleClose l).2 = [ProcessExit 1].
Proof.
  intros Hge. unfold handleClose.
  destruct (Nat.ltb_spec (reconnectAttempts l) (maxReconnectAttempts l));
    [lia|reflexivity].
Qed.

(** After a successful open, the next close waits the base step again. *)
Lemma close_after_open_starts_over (l : Listener) :
  0 < maxReconnectAttempts l ->
  (handleClose (handleOpen l).1).2 = [SetTimeoutConnect 2000].
Proof.
  intros Hmax.
  destruct (handleClose_schedules (handleOpen l).1 0) as [_ H];
    [reflexivity|exact Hmax|]. exact H.
Qed.

(** [n] closes in a row, while the attempt budget lasts. *)
Lemma closes_in_a_row_schedule (n : nat) (l : Listener) :
  reconnectAttempts l + n <= maxReconnectAttempts l ->
  reconnectAttempts (closeTimes n l).1 = reconnectAttempts l + n
  /\ maxReconnectAttempts (closeTimes n l).1 = maxReconnectAttempts l
  /\ (closeTimes n l).2
     = map (fun attempt => SetTimeoutConnect (reconnectDelay attempt))
           (seq (S (reconnectAttempts l)) n).
Proof.
  revert l. induction n as [|n IH]; intros l Hle; cbn [closeTimes].
  - cbn. repeat split; lia.
  - destruct (handleClose_schedules
                l (reconnectAttempts l) eq_refl ltac:(lia)) as [Ha Hout].
    assert (maxReconnectAttempts (handleClose l).1 = maxReconnectAttempts l)
      as Hmax.
    { unfold handleClose.
      destruct (reconnectAttempts l <? maxReconnectAttempts l)%nat;
        reflexivity. }
    destruct (handleClose l) as [l1 out1]. cbn [fst snd] in *.
    specialize (IH l1 ltac:(lia)).
    destruct (closeTimes n l1) as [l2 out2]. cbn [fst snd] in *.
    destruct IH as (IHa & IHm & IHo). subst out1 out2.
    rewrite IHa, IHm, Ha, Hmax.
    split; [lia|]. split; reflexivity.
Qed.


(** *** Failed transactions and the deferred fetch *)

Section Rpc.

Variable getTransaction : string -> completion (option Tx).

Lemma fetchAndProcessTransaction_fetches_once
      (l : Listener) (s s' : string) :
  fetchCount s (fetchAndProcessTransaction getTransaction l s').2
  = if String.eqb s' s then 1 else 0.
Proof.
  unfold fetchAndProcessTransaction.
  destruct (getTransaction s') as [[tx|]|e]; simpl;
    try destruct (extractMigrationData tx s'); simpl;
    unfold fetchCount; simpl; destruct (String.eqb s' s); reflexivity.
Qed.

(** A log of a failed transaction is counted and dropped: nothing is
    fetched and no migration is recorded or displayed. *)
Lemma processLog_failed (l : Listener) (value : LogValue) :
  is_Some (err value) ->
  processLog getTransaction l value = (countLog l, [LogSkippedFailed]).
Proof. intros [e He]. unfold processLog. now rewrite He. Qed.

Lemma processLog_fetchCount (l : Listener) (value : LogValue) (s : string) :
  fetchCount s (processLog getTransaction l value).2
  = if triggersFetch s (LogsNotification value) then 1 else 0.
Proof.
  unfold processLog, triggersFetch.
  destruct (err value) as [e|].
  - rewrite andb_false_r. reflexivity.
  - rewrite andb_true_r. destruct (hasMigration (logs value)).
    + rewrite fetchAndProcessTransaction_fetches_once, andb_true_r.
      reflexivity.
    + rewrite andb_false_r. reflexivity.
Qed.

(** C4, as the listener does it: for every signature the number of
    detail fetches equals the number of deliveries for it that are not
    failed and carry a migration phrase.  One such delivery gives one
    fetch; every further delivery of the same signature gives one more. *)
Theorem fetches_follow_deliveries
        (l : Listener) (ms : list WsMessage) (s : string) :
  fetchCount s (handleMessages getTransaction l ms).2 = deliveriesFor s ms.
Proof.
  revert l. induction ms as [|m ms IH]; intros l; [reflexivity|].
  cbn [handleMessages].
  destruct (handleMessage getTransaction l m) as [l1 out1] eqn:E1.
  specialize (IH l1).
  destruct (handleMessages getTransaction l1 ms) as [l2 out2] eqn:E2.
  cbn [snd] in *. rewrite fetchCount_app, IH.
  unfold deliveriesFor. cbn [List.filter].
  assert (fetchCount s out1 = if triggersFetch s m then 1 else 0) as ->.
  { replace out1 with (handleMessage getTransaction l m).2
      by now rewrite E1.
    destruct m as [id|value|]; cbn [handleMessage]; try reflexivity.
    - destruct (id =? 0)%N; reflexivity.
    - apply processLog_fetchCount. }
  destruct (triggersFetch s m); reflexivity.
Qed.


End Rpc.

(** C4, against a bound of one fetch per signature: two deliveries of
    one signature, two fetches of it. *)
Lemma duplicate_delivery_fetches_twice :
  ~ (forall (getTransaction : string -> completion (option Tx))
            (l : Listener) (ms : list WsMessage) (s : string),
        fetchCount s (handleMessages getTransaction l ms).2 <= 1).
Proof.
  intros H.
  specialize (H notFound new [migrateLog "sigA"; migrateLog "sigA"] "sigA").
  vm_compute in H. lia.
Qed.

Lemma fetches_follow_deliveries_example :
  fetchCount "sigA"
    (handleMessages notFound new
       [migrateLog "sigA"; failedMigrateLog "sigA"; migrateLog "sigB";
        migrateLog "sigA"]).2 = 2.
Proof. vm_compute. reflexivity. Qed.

(** *** Extraction *)

Lemma unsettled_falls_through (tx : Tx) (s : string) (keys : list PublicKey)
      (instruction : Instruction) :
  settles keys instruction = false ->
  extractFromInstruction tx s (Some keys) instruction = Return None.
Proof.
  unfold settles, extractFromInstruction.
  destruct (programOf (Some keys) instruction) as [p|e] eqn:Ep;
    cbn [mbind completion_bind].
  - intros H. apply orb_false_elim in H as [Hr Hp]. rewrite Hp.
    destruct (isProgram p RAYDIUM_PROGRAM); [|reflexivity].
    destruct (accounts instruction) as [a|]; [|reflexivity].
    cbn [andb] in Hr. apply Nat.leb_gt in Hr.
    destruct (Nat.ltb_spec (length a) 7); [reflexivity|lia].
  - unfold programOf, keyAt in Ep.
    destruct (programIdIndex instruction); discriminate.
Qed.

Lemma settled_never_falls_through (tx : Tx) (s : string)
      (keys : list PublicKey) (instruction : Instruction) :
  settles keys instruction = true ->
  extractFromInstruction tx s (Some keys) instruction <> Return None.
Proof.
  unfold settles, extractFromInstruction.
  destruct (programOf (Some keys) instruction) as [p|e];
    cbn [mbind completion_bind]; [|discriminate].
  intros H.
  destruct (isProgram p RAYDIUM_PROGRAM) eqn:Er.
  - destruct (accounts instruction) as [a|].
    + destruct (Nat.ltb_spec (length a) 7) as [Hlt|Hge].
      * destruct (Nat.leb_spec 7 (length a)); [lia|].
        cbn [andb orb] in H.
        destruct p as [p|]; [|discriminate]. cbn [isProgram] in Er, H.
        apply String.eqb_eq in Er. apply String.eqb_eq in H.
        rewrite Er in H. discriminate.
      * repeat match goal with
               | |- context [accountIndex ?a ?i] =>
                   destruct (accountIndex a i); simpl; [|discriminate]
               | |- context [keyTextAt ?k ?i] =>
                   destruct (keyTextAt k i); simpl; [|discriminate]
               end.
        discriminate.
    + cbn [andb orb] in H.
      destruct p as [p|]; [|discriminate]. cbn [isProgram] in Er, H.
      apply String.eqb_eq in Er. apply String.eqb_eq in H.
      rewrite Er in H. discriminate.
  - cbn [andb orb] in H. rewrite H. simpl. discriminate.
Qed.

Lemma scan_first_settling (tx : Tx) (s : string) (keys : list PublicKey)
      (pre post : list Instruction) (i : Instruction) :
  Forall (fun j => settles keys j = false) pre ->
  settles keys i = true ->
  scanInstructions tx s (Some keys) (pre ++ i :: post)
  = extractFromInstruction tx s (Some keys) i.
Proof.
  intros Hpre Hi. induction Hpre as [|j pre Hj _ IH]; cbn [app scanInstructions].
  - pose proof (settled_never_falls_through tx s keys i Hi) as Hne.
    destruct (extractFromInstruction tx s (Some keys) i) as [[d|]|e];
      simpl; [reflexivity|congruence|reflexivity].
  - rewrite (unsettled_falls_through tx s keys j Hj). simpl. exact IH.
Qed.

Lemma scan_none_settling (tx : Tx) (s : string) (keys : list PublicKey)
      (instrs : list Instruction) :
  Forall (fun j => settles keys j = false) instrs ->
  scanInstructions tx s (Some keys) instrs = Return None.
Proof.
  induction 1 as [|j instrs Hj _ IH]; cbn [scanInstructions]; [reflexivity|].
  rewrite (unsettled_falls_through tx s keys j Hj). simpl. exact IH.
Qed.








Lemma no_settling_instruction_no_event
      (tx : Tx) (s : string) (keys : list PublicKey)
      (instrs : list Instruction) :
  accountKeysOf (message tx) = Some keys ->
  instructionsOf (message tx) = Some instrs ->
  Forall (fun j => settles keys j = false) instrs ->
  extractMigrationData tx s = None.
Proof.
  intros Hk Hi Hall.
  unfold extractMigrationData, extractMigrationData_body.
  rewrite Hk, Hi. now rewrite scan_none_settling.
Qed.

Example later_instruction_ignored :
  extractMigrationData
    (sampleTx [otherInstruction; pumpInstruction; raydiumInstruction]) "sigA"
  = Some (PumpSwap "sigA" 7 (Some 1700000000%Z) "token" "curve" "PumpSwap")
  /\ extractMigrationData
       (sampleTx [raydiumInstruction; pumpInstruction]) "sigA"
     = Some (Raydium "sigA" 7 (Some 1700000000%Z)
                     "curve" "token" "ComputeBudget111111111111111111111111111111" "curve").
Proof. vm_compute. split; reflexivity. Qed.

End MigrationListenerProps.

(** ** The transfer monitor *)

Module TransferMonitorProps.
Import TransferMonitor.

(** The SOL comparison is a comparison of lamports with 100 * 10^9. *)
Lemma meetsThreshold_lamports (amount : N) :
  meetsThreshold amount = true <-> (100000000000 <= amount)%N.
Proof.
  unfold meetsThreshold. rewrite Qle_bool_iff.
  unfold solAmountOf, MIN_TRANSFER_AMOUNT, LAMPORTS_PER_SOL.
  unfold Qle, Qdiv, Qmult, Qinv, inject_Z. cbn [Qnum Qden]. lia.
Qed.

Section Codecs.

Variable bs58_encode : list byte -> string.


Lemma transfer_onData_ignores_status
      (m : StreamMessage) (e : option string) (stats : Stats) :
  onData bs58_encode
         {| pong := pong m;
            transaction :=
              match transaction m with
              | Some upd =>
                  Some {| upd_transaction :=
                            {| tx_signature :=
                                 tx_signature (upd_transaction upd);
                               tx_message := tx_message (upd_transaction upd);
                               tx_meta_err := e |};
                          upd_slot := upd_slot upd |}
              | None => None
              end;
            filters := filters m |} stats
  = onData bs58_encode m stats.
Proof.
  unfold onData. simpl.
  destruct (pong m); [reflexivity|].
  destruct (transaction m) as [upd|]; [|reflexivity].
  destruct (filters m) as [fs|]; reflexivity.
Qed.

End Codecs.

Example transfer_at_threshold :
  classifyInstruction ascii_text sampleKeys (transferInstruction lamports100SOL)
  = Return (Some {| amount := 100000000000; from := "alice"; to := "bob" |})
  /\ classifyInstruction ascii_text sampleKeys
                         (transferInstruction lamportsJustBelow)
     = Return None.
Proof. vm_compute. split; reflexivity. Qed.

(** The handler end to end: 100 SOL is displayed, a lamport less is not. *)
Example transfer_handler_at_threshold :
  transfersOf (onData ascii_text (transferMessage lamports100SOL None)
                      {| totalTransfers := 0; totalVolume := 0;
                         largestTransfer := 0; largestTransferTx := None |}).2
  = [ {| tr_data := {| amount := 100000000000; from := "alice"; to := "bob" |};
         tr_signature := "sig1";
         tr_slot := 42 |} ]
  /\ transfersOf (onData ascii_text (transferMessage lamportsJustBelow None)
                         {| totalTransfers := 0; totalVolume := 0;
                            largestTransfer := 0; largestTransferTx := None |}).2
     = [].
Proof. vm_compute. split; reflexivity. Qed.

End TransferMonitorProps.

(** ** The whale tracker *)

Module WhaleTrackerProps.
Import WhaleTracker.

(** *** Reconnection *)




Lemma handleReconnect_gives_up (c : Connection) (t : Tracker) :
  maxReconnectAttempts t <= reconnectAttempts t ->
  handleReconnect c t = (t, [LogMaxAttempts c]).
Proof.
  intros Hge. unfold handleReconnect.
  destruct (Nat.ltb_spec (reconnectAttempts t) (maxReconnectAttempts t));
    [lia|reflexivity].
Qed.

Lemma onOpen_hyperevm_resets (t : Tracker) :
  reconnectAttempts (onOpen hyperevm t).1 = 0.
Proof. reflexivity. Qed.

Lemma onOpen_hyperliquid_keeps (t : Tracker) :
  (onOpen hyperliquid t).1 = t.
Proof. reflexivity. Qed.




(** C5: the open handler of the Hyperliquid Info connection leaves the
    attempt counter where it was.  After three failed attempts and a
    successful open, the next close waits 16 s, not the base 2 s; the
    HyperEVM open handler, on the same tracker, does reset the counter. *)
Theorem hyperliquid_open_keeps_attempts :
  let t := set_reconnectAttempts 3 new in
  reconnectAttempts (onOpen hyperliquid t).1 = 3
  /\ (onClose hyperliquid (onOpen hyperliquid t).1).2
     = [SetTimeoutReconnect hyperliquid 16000]
  /\ reconnectAttempts (onOpen hyperevm t).1 = 0
  /\ (onClose hyperevm (onOpen hyperevm t).1).2
     = [SetTimeoutReconnect hyperevm 2000].
Proof. vm_compute. repeat split; reflexivity. Qed.

(** Five closes of the Hyperliquid Info connection, each followed by a
    successful open, and the tracker stops reconnecting. *)
Example hyperliquid_gives_up_despite_opens :
  let cycle t := (onOpen hyperliquid (onClose hyperliquid t).1).1 in
  (onClose hyperliquid (cycle (cycle (cycle (cycle (cycle new)))))).2
  = [LogMaxAttempts hyperliquid].
Proof. vm_compute. reflexivity. Qed.

(** *** The Telegram queue *)

Lemma sendTelegramMessage_outbox (cfg : Config) (m : TelegramMessage)
      (t : Tracker) :
  hasTelegram cfg = true -> consistent t ->
  outbox (sendTelegramMessage cfg m t) = outbox t ++ [m].
Proof.
  intros Hcfg Hcons. unfold sendTelegramMessage, outbox. rewrite Hcfg.
  cbn [negb]. destruct t as [ra mra wa tc q sending last d pa bt fl].
  unfold consistent in Hcons. cbn in *.
  destruct sending; cbn.
  - destruct fl; reflexivity.
  - destruct fl as [x|]; [specialize (Hcons ltac:(discriminate)); discriminate|].
    unfold processTelegramQueue_begin. cbn.
    destruct q as [|h q']; cbn; reflexivity.
Qed.

Lemma sendTelegramMessage_frame (cfg : Config) (m : TelegramMessage)
      (t : Tracker) :
  pendingAlerts (sendTelegramMessage cfg m t) = pendingAlerts t
  /\ batchTimer (sendTelegramMessage cfg m t) = batchTimer t
  /\ tradeCount (sendTelegramMessage cfg m t) = tradeCount t
  /\ TELEGRAM_DELAY (sendTelegramMessage cfg m t) = TELEGRAM_DELAY t.
Proof.
  unfold sendTelegramMessage, processTelegramQueue_begin.
  destruct (negb (hasTelegram cfg)); [now repeat split|].
  destruct t as [ra mra wa tc q sending last d pa bt fl]; cbn.
  destruct sending; cbn; [now repeat split|].
  destruct (q ++ [m]); now repeat split.
Qed.

Lemma sendTelegramMessage_consistent (cfg : Config) (m : TelegramMessage)
      (t : Tracker) :
  consistent t -> consistent (sendTelegramMessage cfg m t).
Proof.
  unfold consistent, sendTelegramMessage, processTelegramQueue_begin.
  destruct (negb (hasTelegram cfg)); [tauto|].
  destruct t as [ra mra wa tc q sending last d pa bt fl]; cbn.
  destruct sending; cbn; [tauto|].
  destruct (q ++ [m]); cbn; tauto.
Qed.

(** *** Trades *)

Section Doubles.

Variable fmul : Q -> Q -> Q.
Variable fadd : Q -> Q -> Q.

Lemma notifyWhaleTrade_immediate (cfg : Config) (n : TradeNotice)
      (t : Tracker) :
  hasTelegram cfg = true -> consistent t ->
  outbox (notifyWhaleTrade cfg n t).1 = outbox t ++ [WhaleTradeAlert n]
  /\ pendingAlerts (notifyWhaleTrade cfg n t).1 = pendingAlerts t
  /\ batchTimer (notifyWhaleTrade cfg n t).1 = batchTimer t.
Proof.
  intros Hcfg Hcons. unfold notifyWhaleTrade. rewrite Hcfg. cbn [fst].
  split; [now apply sendTelegramMessage_outbox|].
  pose proof (sendTelegramMessage_frame cfg (WhaleTradeAlert n) t).
  tauto.
Qed.

(** The batch flush, had anything been put into [pendingAlerts]: one
    message with the number of alerts and the sum of their values. *)
Lemma sendBatchedAlerts_flushes (cfg : Config) (now : Z) (t : Tracker) :
  hasTelegram cfg = true -> consistent t -> pendingAlerts t <> [] ->
  outbox (sendBatchedAlerts fadd cfg now t)
  = outbox t
    ++ [WhaleActivityBatch
          (length (pendingAlerts t))
          (fold_left (fun sum alert => add fadd sum (a_value alert))
                     (pendingAlerts t) (Some 0%Q))
          (pendingAlerts t) now]
  /\ pendingAlerts (sendBatchedAlerts fadd cfg now t) = [].
Proof.
  intros Hcfg Hcons Hne. unfold sendBatchedAlerts.
  destruct (pendingAlerts t) as [|a pa] eqn:E; [congruence|].
  split; [|reflexivity].
  rewrite <- (sendTelegramMessage_outbox cfg _ t Hcfg Hcons).
  unfold outbox. reflexivity.
Qed.

Lemma trackWhaleAddress_frame (now : Z) (address : string) (value : number)
      (coin : string) (t : Tracker) :
  trackWhaleAddress fadd now address value coin t
  = set_whaleAddresses
      (whaleAddresses (trackWhaleAddress fadd now address value coin t)) t.
Proof.
  unfold trackWhaleAddress.
  destruct (whaleAddresses t !! address); reflexivity.
Qed.

Lemma analyzeTrade_whale (cfg : Config) (now : Z) (trade : Trade)
      (t : Tracker) :
  isWhaleTrade cfg (mul fmul (px trade) (sz trade)) (sz trade) = true ->
  (analyzeTrade fmul fadd cfg now trade t).2
  = [ConsoleLog
       (WhaleTradeAlert
          {| n_coin := coin trade;
             n_side := side trade;
             n_price := px trade;
             n_size := sz trade;
             n_value := mul fmul (px trade) (sz trade);
             n_time := time trade;
             n_user := stringOr (user trade) "Unknown";
             n_hash := stringOrNull (hash trade);
             n_tradeId := idOrNull (tid trade) |})]
  /\ tradeCount (analyzeTrade fmul fadd cfg now trade t).1
     = S (tradeCount t).
Proof.
  intros Hw. unfold analyzeTrade. rewrite Hw.
  unfold notifyWhaleTrade. cbn [fst snd]. split; [reflexivity|].
  cbn [set_tradeCount tradeCount]. f_equal.
  assert (forall t', tradeCount
            (if hasTelegram cfg
             then sendTelegramMessage cfg
                    (WhaleTradeAlert
                       {| n_coin := coin trade;
                          n_side := side trade;
                          n_price := px trade;
                          n_size := sz trade;
                          n_value := mul fmul (px trade) (sz trade);
                          n_time := time trade;
                          n_user := stringOr (user trade) "Unknown";
                          n_hash := stringOrNull (hash trade);
                          n_tradeId := idOrNull (tid trade) |}) t'
             else t') = tradeCount t') as Hsend.
  { intros t'. destruct (hasTelegram cfg); [|reflexivity].
    apply sendTelegramMessage_frame. }
  rewrite Hsend.
  destruct (knownUser (user trade)); [|reflexivity].
  rewrite trackWhaleAddress_frame. reflexivity.
Qed.

Lemma analyzeTrade_not_whale (cfg : Config) (now : Z) (trade : Trade)
      (t : Tracker) :
  isWhaleTrade cfg (mul fmul (px trade) (sz trade)) (sz trade) = false ->
  analyzeTrade fmul fadd cfg now trade t = (t, []).
Proof. intros Hw. unfold analyzeTrade. now rewrite Hw. Qed.

End Doubles.

(** C3: with the batching switch on (its default) and the interval at its
    default of 600000 ms, two whale trades still leave the tracker as two
    separate Telegram messages, handed over at once; nothing is put into
    [pendingAlerts] and no batch timer is armed. *)
Theorem batching_enabled_alerts_sent_one_by_one :
  let cfg := CONFIG telegramEnv in
  let run :=
    analyzeTrades Qmult Qplus cfg 0
      [tradeOf 50000 3 "0xabc"; tradeOf 60000 2 "0xdef"] new in
  TELEGRAM_BATCH_ALERTS cfg = true
  /\ TELEGRAM_BATCH_INTERVAL cfg = 600000%Q
  /\ outbox run.1
     = [WhaleTradeAlert (noticeOf 50000 3 150000 "0xabc");
        WhaleTradeAlert (noticeOf 60000 2 120000 "0xdef")]
  /\ pendingAlerts run.1 = []
  /\ batchTimer run.1 = None.
Proof. vm_compute. repeat split; reflexivity. Qed.

(** *** Rate limiting *)

Lemma timerDelay_positive (ms : Z) : (1 <= timerDelay ms)%Z.
Proof.
  unfold timerDelay, TIMEOUT_MAX.
  destruct (Z.ltb_spec ms 1), (Z.ltb_spec 2147483647 ms); cbn [orb]; lia.
Qed.








(** The scenario end to end: 429 with retry-after 5 s, then 200.  The
    message is posted at 10 s and again at 16.7 s, and the queue is
    empty afterwards. *)
Example retry_after_five_seconds :
  let m := WhaleTradeAlert (noticeOf 50000 3 150000 "0xabc") in
  let run :=
    runConsumer (sendTelegramMessage (CONFIG telegramEnv) m new)
      [ {| turn_now := 10000; turn_latency := 200;
           turn_outcome := rateLimited 5; turn_arrivals := [] |};
        {| turn_now := 16700; turn_latency := 200;
           turn_outcome := delivered; turn_arrivals := [] |};
        {| turn_now := 18400; turn_latency := 0;
           turn_outcome := delivered; turn_arrivals := [] |} ] in
  run.2 = [Post 10000 m; Sleep 5000; ScheduleNext 15200 1500;
           Post 16700 m; ScheduleNext 16900 1500]
  /\ postsOf run.2 = [m; m]
  /\ outbox run.1 = []
  /\ isSendingTelegram run.1 = false.
Proof. vm_compute. repeat split; reflexivity. Qed.

End WhaleTrackerProps.

(** ** Properties shared by several scripts *)

Module SharedProps.

(** *** Reconnection delay *)



(** The whole sequence the listener goes through: 2, 4, 8, 16 s, then
    30 s for attempts 5 to 10. *)
Example listener_delay_sequence :
  map MigrationListener.reconnectDelay (seq 1 10)
  = [2000; 4000; 8000; 16000; 30000; 30000; 30000; 30000; 30000; 30000]%Z.
Proof. vm_compute. reflexivity. Qed.

(** *** Threshold boundary *)




End SharedProps.

(** * Further properties *)

(** ** Little-endian integers *)

Lemma to_N_byteOf (n : N) : Byte.to_N (Buf.byteOf n) = (n mod 256)%N.
Proof.
  unfold Buf.byteOf. destruct (Byte.of_N (n mod 256)) as [b|] eqn:E.
  - now apply Byte.to_of_N.
  - apply Byte.of_N_None_iff in E. pose proof (N.mod_upper_bound n 256). lia.
Qed.

Lemma valueLE_writeLE (width : nat) (n : N) :
  Buf.valueLE (Buf.writeLE width n) = (n mod 256 ^ N.of_nat width)%N.
Proof.
  revert n. induction width as [|width IH]; intros n.
  - cbn. now rewrite N.mod_1_r.
  - cbn [Buf.writeLE Buf.valueLE]. rewrite to_N_byteOf, IH.
    rewrite Nat2N.inj_succ, N.pow_succ_r'.
    now rewrite N.Div0.mod_mul_r.
Qed.

Lemma length_writeLE (width : nat) (n : N) : length (Buf.writeLE width n) = width.
Proof. revert n. induction width; intros n; cbn; [reflexivity|now f_equal]. Qed.

Lemma readUInt32LE_at (pre buffer : Buf.Buffer) :
  Buf.readUInt32LE (pre ++ buffer) (length pre) = Buf.readUInt32LE buffer 0.
Proof. unfold Buf.readUInt32LE. now rewrite drop_app_length, drop_0. Qed.

Lemma readBigUInt64LE_at (pre buffer : Buf.Buffer) :
  Buf.readBigUInt64LE (pre ++ buffer) (length pre) = Buf.readBigUInt64LE buffer 0.
Proof. unfold Buf.readBigUInt64LE. now rewrite drop_app_length, drop_0. Qed.

Lemma readUInt32LE_valueLE (b0 b1 b2 b3 : byte) (rest : Buf.Buffer) :
  Buf.readUInt32LE (b0 :: b1 :: b2 :: b3 :: rest) 0
  = Return (Buf.valueLE [b0; b1; b2; b3]).
Proof.
  unfold Buf.readUInt32LE. cbn [drop Buf.valueLE]. f_equal.
  change (2 ^ 8)%N with 256%N. change (2 ^ 16)%N with 65536%N.
  change (2 ^ 24)%N with 16777216%N. lia.
Qed.

Lemma readBigUInt64LE_valueLE (b0 b1 b2 b3 b4 b5 b6 b7 : byte) (rest : Buf.Buffer) :
  Buf.readBigUInt64LE (b0 :: b1 :: b2 :: b3 :: b4 :: b5 :: b6 :: b7 :: rest) 0
  = Return (Buf.valueLE [b0; b1; b2; b3; b4; b5; b6; b7]).
Proof.
  unfold Buf.readBigUInt64LE. cbn [drop Buf.valueLE]. f_equal.
  change (2 ^ 8)%N with 256%N. change (2 ^ 16)%N with 65536%N.
  change (2 ^ 24)%N with 16777216%N. change (2 ^ 32)%N with 4294967296%N.
  change (2 ^ 40)%N with 1099511627776%N.
  change (2 ^ 48)%N with 281474976710656%N.
  change (2 ^ 56)%N with 72057594037927936%N. lia.
Qed.

Theorem readUInt32LE_writeUInt32LE (pre rest : Buf.Buffer) (n : N) :
  (n < 2 ^ 32)%N ->
  Buf.readUInt32LE (pre ++ Buf.writeUInt32LE n ++ rest) (length pre) = Return n.
Proof.
  intros Hn. rewrite readUInt32LE_at. unfold Buf.writeUInt32LE.
  cbn [Buf.writeLE app]. rewrite readUInt32LE_valueLE.
  change [Buf.byteOf n; Buf.byteOf (n / 256); Buf.byteOf (n / 256 / 256);
          Buf.byteOf (n / 256 / 256 / 256)] with (Buf.writeLE 4 n).
  rewrite valueLE_writeLE. f_equal. apply N.mod_small. exact Hn.
Qed.

Theorem readBigUInt64LE_writeBigUInt64LE (pre rest : Buf.Buffer) (n : N) :
  (n < 2 ^ 64)%N ->
  Buf.readBigUInt64LE (pre ++ Buf.writeBigUInt64LE n ++ rest) (length pre)
  = Return n.
Proof.
  intros Hn. rewrite readBigUInt64LE_at. unfold Buf.writeBigUInt64LE.
  cbn [Buf.writeLE app]. rewrite readBigUInt64LE_valueLE.
  match goal with |- Return (Buf.valueLE ?l) = _ =>
    change l with (Buf.writeLE 8 n) end.
  rewrite valueLE_writeLE. f_equal. apply N.mod_small. exact Hn.
Qed.

Module MintMonitorMore.
Import MintMonitor.

Section Codecs.
Variable bs58_encode : list byte -> string.
Variable utf8_toString : list byte -> string.

Lemma slice_middle (pre text rest : Buf.Buffer) :
  Buf.slice (pre ++ text ++ rest) (length pre) (length pre + length text) = text.
Proof.
  unfold Buf.slice. rewrite drop_app_length.
  replace (length pre + length text - length pre) with (length text) by lia.
  now rewrite take_app_length.
Qed.

Lemma decodeString_encodeString_aux (pre text rest : Buf.Buffer) :
  (N.of_nat (length text) < 2 ^ 32)%N ->
  decodeString utf8_toString (pre ++ encodeString text ++ rest) (length pre)
  = Return {| value := utf8_toString text;
              bytesRead := 4 + N.of_nat (length text) |}.
Proof.
  intros Hlen. unfold encodeString. rewrite <- (app_assoc _ text rest).
  rewrite (MintMonitorProps.decodeString_after_prefix utf8_toString _ _
             (N.of_nat (length text)))
    by now apply readUInt32LE_writeUInt32LE.
  do 2 f_equal. rewrite Nat2N.id.
  rewrite (app_assoc pre).
  replace (length pre + 4) with (length (pre ++ Buf.writeUInt32LE (N.of_nat (length text))))
    by (rewrite length_app; unfold Buf.writeUInt32LE; now rewrite length_writeLE).
  now rewrite slice_middle.
Qed.

(** X1: a string written as its 32-bit little-endian length followed by
    its bytes is decoded back, wherever it sits in the buffer and whatever
    follows it: the text is the string and the count is 4 plus its length. *)
Theorem decodeString_encodeString (pre text rest : Buf.Buffer) :
  (N.of_nat (length text) < 2 ^ 32)%N ->
  decodeString utf8_toString (pre ++ encodeString text ++ rest) (length pre)
  = Return {| value := utf8_toString text;
              bytesRead := 4 + N.of_nat (length text) |}.
Proof. intros. apply decodeString_encodeString_aux; assumption. Qed.


Lemma length_encodeString (text : Buf.Buffer) :
  length (encodeString text) = 4 + length text.
Proof.
  unfold encodeString, Buf.writeUInt32LE.
  now rewrite length_app, length_writeLE.
Qed.

(** X2: a payload made of 8 leading bytes and the three length-prefixed
    strings name, symbol and uri parses to exactly these three strings.
    The 8 leading bytes are skipped unread and bytes after the uri are
    ignored. *)
Theorem parseCreateInstruction_wellformed
        (discriminator name symbol uri rest : Buf.Buffer) :
  length discriminator = 8 ->
  (N.of_nat (length name) < 2 ^ 32)%N ->
  (N.of_nat (length symbol) < 2 ^ 32)%N ->
  (N.of_nat (length uri) < 2 ^ 32)%N ->
  parseCreateInstruction utf8_toString
    (discriminator ++ encodeString name ++ encodeString symbol
       ++ encodeString uri ++ rest)
  = Some {| name := utf8_toString name;
            symbol := utf8_toString symbol;
            uri := utf8_toString uri |}.
Proof.
  intros Hd Hn Hs Hu. unfold parseCreateInstruction.
  replace 8 with (length discriminator) by exact Hd.
  rewrite decodeString_encodeString_aux by exact Hn.
  cbn [mbind completion_bind bytesRead value].
  replace (length discriminator + N.to_nat (4 + N.of_nat (length name)))
    with (length (discriminator ++ encodeString name))
    by (rewrite length_app, length_encodeString; lia).
  rewrite (app_assoc discriminator (encodeString name)).
  rewrite decodeString_encodeString_aux by exact Hs.
  cbn [mbind completion_bind bytesRead value].
  replace (length (discriminator ++ encodeString name)
           + N.to_nat (4 + N.of_nat (length symbol)))
    with (length ((discriminator ++ encodeString name) ++ encodeString symbol))
    by (rewrite (length_app _ (encodeString symbol)),
          (length_encodeString symbol); lia).
  rewrite (app_assoc (discriminator ++ encodeString name)
                     (encodeString symbol)).
  rewrite decodeString_encodeString_aux by exact Hu.
  reflexivity.
Qed.

Lemma decodeString_returns (buffer : Buf.Buffer) (offset : nat) (d : Decoded) :
  decodeString utf8_toString buffer offset = Return d ->
  offset + 4 <= length buffer /\ (4 <= bytesRead d)%N.
Proof.
  unfold decodeString.
  destruct (Buf.readUInt32LE buffer offset) as [L|e] eqn:E; [|discriminate].
  cbn [mbind completion_bind mret completion_ret]. intros [= <-].
  split; [now apply readUInt32LE_returns with L|cbn; lia].
Qed.

(** X3: a payload of fewer than 20 bytes, the 8 leading bytes plus three
    length prefixes, is never parsed: the result is null. *)
Theorem parseCreateInstruction_too_short (data : Buf.Buffer) :
  length data < 20 -> parseCreateInstruction utf8_toString data = None.
Proof.
  intros Hlen. unfold parseCreateInstruction.
  destruct (decodeString utf8_toString data 8) as [d1|e] eqn:E1;
    [|reflexivity].
  apply decodeString_returns in E1 as [H1 B1].
  cbn [mbind completion_bind].
  destruct (decodeString utf8_toString data (8 + N.to_nat (bytesRead d1)))
    as [d2|e] eqn:E2; [|reflexivity].
  apply decodeString_returns in E2 as [H2 B2].
  cbn [mbind completion_bind].
  destruct (decodeString utf8_toString data
              (8 + N.to_nat (bytesRead d1) + N.to_nat (bytesRead d2)))
    as [d3|e] eqn:E3; [|reflexivity].
  apply decodeString_returns in E3 as [H3 B3]. lia.
Qed.


(** *** Accounts *)

Lemma mapKeys_returns (keys : list (list byte)) (indices : list nat)
      (l : list string) :
  mapKeys bs58_encode keys indices = Return l ->
  l = omap (fun idx => bs58_encode <$> keys !! idx) indices
  /\ Forall (fun idx => idx < length keys) indices.
Proof.
  revert l. induction indices as [|idx rest IH]; intros l; cbn [mapKeys].
  - intros [= <-]. split; [reflexivity|constructor].
  - unfold encodeKey. destruct (keys !! idx) as [key|] eqn:Ek; [|discriminate].
    cbn [mbind completion_bind].
    destruct (mapKeys bs58_encode keys rest) as [l'|e]; [|discriminate].
    cbn [mbind completion_bind mret completion_ret]. intros [= <-].
    destruct (IH l' eq_refl) as [-> Hall]. split.
    + cbn [omap list_omap]. rewrite Ek. reflexivity.
    + constructor; [|exact Hall]. now apply lookup_lt_Some with key.
Qed.

Lemma mapKeys_throws (keys : list (list byte)) (indices : list nat) (e : exn) :
  mapKeys bs58_encode keys indices = Throw e ->
  Exists (fun idx => length keys <= idx) indices.
Proof.
  induction indices as [|idx rest IH]; cbn [mapKeys]; [discriminate|].
  unfold encodeKey. destruct (keys !! idx) as [key|] eqn:Ek.
  - cbn [mbind completion_bind].
    destruct (mapKeys bs58_encode keys rest) as [l'|e']; [discriminate|].
    intros H. apply Exists_cons_tl. apply IH. exact H.
  - intros _. apply Exists_cons_hd. now apply lookup_ge_None.
Qed.

(** X4: for an instruction of the message, [extractAccounts] returns null
    exactly when one of its account indices points past the end of the
    key list. *)
Theorem extractAccounts_none_iff (message : TxMessage) (i : nat)
        (instruction : Instruction) :
  instructions message !! i = Some instruction ->
  extractAccounts bs58_encode message i = None
  <-> Exists (fun idx => length (accountKeys message) <= idx)
             (accounts instruction).
Proof.
  intros Hi. unfold extractAccounts. rewrite Hi.
  destruct (mapKeys bs58_encode (accountKeys message) (accounts instruction))
    as [l|e] eqn:E; cbn.
  - split; [discriminate|]. intros Hex.
    apply mapKeys_returns in E as [_ Hall]. exfalso.
    apply Exists_exists in Hex as (idx & Hin & Hge).
    rewrite Forall_forall in Hall. specialize (Hall idx Hin). lia.
  - split; [|reflexivity]. intros _. now apply mapKeys_throws with e.
Qed.

(** X5: when [extractAccounts] succeeds, mint, bonding curve and creator
    are the encoded keys behind the instruction's account positions 0, 2
    and 7; a position the instruction does not have is left undefined. *)
Theorem extractAccounts_positions (message : TxMessage) (i : nat)
        (instruction : Instruction) (found : Accounts) :
  instructions message !! i = Some instruction ->
  extractAccounts bs58_encode message i = Some found ->
  let keyAt position :=
    idx ← accounts instruction !! position;
    bs58_encode <$> accountKeys message !! idx in
  mint found = keyAt 0
  /\ bondingCurve found = keyAt 2
  /\ creator found = keyAt 7.
Proof.
  intros Hi. unfold extractAccounts. rewrite Hi.
  destruct (mapKeys bs58_encode (accountKeys message) (accounts instruction))
    as [l|e] eqn:E; cbn; [|discriminate].
  intros [= <-]. apply mapKeys_returns in E as [-> Hall].
  cbn [mint bondingCurve creator].
  assert (forall position,
             omap (fun idx => bs58_encode <$> accountKeys message !! idx)
                  (accounts instruction) !! position
             = idx ← accounts instruction !! position;
               bs58_encode <$> accountKeys message !! idx) as Hpos.
  { clear Hi. induction Hall as [|idx rest Hidx Hall IH]; intros position.
    - reflexivity.
    - cbn [omap list_omap].
      destruct (accountKeys message !! idx) as [key|] eqn:Ek.
      + cbn [fmap option_fmap option_map]. destruct position as [|position].
        * cbn. rewrite Ek. reflexivity.
        * cbn. apply IH.
      + apply lookup_ge_None in Ek. lia. }
  repeat split; apply Hpos.
Qed.

(** *** The handler *)

Lemma scanInstructions_totalMints (now : Z) (txMessage : TxMessage)
      (signature : string) (slot : N) (i : nat) (rest : list Instruction)
      (stats : Stats) :
  totalMints
    (scanInstructions bs58_encode utf8_toString now txMessage signature slot
                      i rest stats).1
  = totalMints stats
    + length (mintsOf (scanInstructions bs58_encode utf8_toString now txMessage
                                        signature slot i rest stats).2).
Proof.
  revert i stats. induction rest as [|instruction rest IH]; intros i stats;
    cbn [scanInstructions].
  - cbn. lia.
  - destruct (isCreateInstruction bs58_encode instruction
                                  (accountKeys txMessage)) as [[|]|e].
    + destruct (parseCreateInstruction utf8_toString (data instruction));
        [|apply IH].
      destruct (extractAccounts bs58_encode txMessage i); [|apply IH].
      unfold displayTokenMint.
      match goal with
      | |- context [scanInstructions _ _ _ _ _ _ ?j _ ?st] =>
          specialize (IH j st);
          destruct (scanInstructions bs58_encode utf8_toString now txMessage
                                     signature slot j rest st) as [s2 o2]
      end.
      cbn in *. lia.
    + apply IH.
    + cbn. lia.
Qed.

(** X6: the handler raises [totalMints] by exactly the number of token
    mints it displays for the message. *)
Theorem onData_counts_mints (now : Z) (message : StreamMessage) (stats : Stats) :
  totalMints (onData bs58_encode utf8_toString now message stats).1
  = totalMints stats
    + length (mintsOf (onData bs58_encode utf8_toString now message stats).2).
Proof.
  unfold onData. destruct (pong message); [cbn; lia|].
  destruct (transaction message) as [upd|]; [|cbn; lia].
  destruct (filters message) as [fs|]; [|cbn; lia].
  destruct (list_includes fs "pumpfun"); [|cbn; lia].
  apply scanInstructions_totalMints.
Qed.

(** X7: an instruction whose program index points past the key list ends
    the scan of its transaction with a logged TypeError: the instructions
    after it are never looked at, and what was displayed before stays. *)
Theorem bad_program_index_stops_the_scan
        (now : Z) (txMessage : TxMessage) (signature : string) (slot : N)
        (i : nat) (pre post : list Instruction) (bad : Instruction)
        (stats : Stats) :
  length (accountKeys txMessage) <= programIdIndex bad ->
  scanInstructions bs58_encode utf8_toString now txMessage signature slot
                   i (pre ++ bad :: post) stats
  = scanInstructions bs58_encode utf8_toString now txMessage signature slot
                     i (pre ++ [bad]) stats
  /\ exists shown,
       (scanInstructions bs58_encode utf8_toString now txMessage signature slot
                         i (pre ++ bad :: post) stats).2
       = shown ++ [LogError TypeError].
Proof.
  intros Hbad.
  assert (isCreateInstruction bs58_encode bad (accountKeys txMessage)
          = Throw TypeError) as Hthrow.
  { unfold isCreateInstruction, encodeKey.
    now rewrite (lookup_ge_None_2 _ _ Hbad). }
  revert i stats. induction pre as [|instruction pre IH]; intros i stats;
    cbn [app scanInstructions].
  - rewrite Hthrow. split; [reflexivity|]. exists []. reflexivity.
  - destruct (isCreateInstruction bs58_encode instruction
                                  (accountKeys txMessage)) as [[|]|e] eqn:Ei.
    + destruct (parseCreateInstruction utf8_toString (data instruction));
        [|apply IH].
      destruct (extractAccounts bs58_encode txMessage i); [|apply IH].
      unfold displayTokenMint.
      match goal with
      | |- context [scanInstructions _ _ _ _ _ _ ?j (pre ++ bad :: post) ?st] =>
          destruct (IH j st) as [Heq (shown & Hshown)];
          rewrite Heq in Hshown |- *;
          destruct (scanInstructions bs58_encode utf8_toString now txMessage
                                     signature slot j (pre ++ [bad]) st)
            as [s2 o2]
      end.
      cbn in *. split; [reflexivity|]. subst o2.
      eexists. rewrite app_comm_cons. reflexivity.
    + apply IH.
    + assert (e = TypeError) as ->.
      { unfold isCreateInstruction, encodeKey in Ei.
        destruct (accountKeys txMessage !! programIdIndex instruction);
          cbn in Ei; [|congruence].
        destruct (negb _); discriminate. }
      split; [reflexivity|]. exists []. reflexivity.
Qed.

End Codecs.

(** X8: at shutdown the uptime in whole seconds is split into minutes and
    seconds that add up to it again, with the seconds below 60. *)
Theorem uptime_split (startTime now : Z) :
  (startTime <= now)%Z ->
  let uptime := uptimeOf startTime now in
  (0 <= uptime)%Z
  /\ (uptimeMinutes uptime * 60 + uptimeSeconds uptime = uptime)%Z
  /\ (0 <= uptimeSeconds uptime < 60)%Z
  /\ (uptime * 1000 <= now - startTime < (uptime + 1) * 1000)%Z.
Proof.
  intros Hle. unfold uptimeOf, uptimeMinutes, uptimeSeconds. cbn zeta.
  assert (0 <= (now - startTime) / 1000)%Z as H0 by (apply Z.div_pos; lia).
  rewrite Z.rem_mod_nonneg by lia.
  pose proof (Z.div_mod ((now - startTime) / 1000) 60 ltac:(lia)).
  pose proof (Z.mod_pos_bound ((now - startTime) / 1000) 60 ltac:(lia)).
  pose proof (Z.div_mod (now - startTime) 1000 ltac:(lia)).
  pose proof (Z.mod_pos_bound (now - startTime) 1000 ltac:(lia)).
  lia.
Qed.


Lemma decodeString_encodeString_witness :
  decodeString ascii_text
    (CREATE_DISCRIMINATOR ++ encodeString (ascii_bytes "Foo") ++ [x2a])
    (length CREATE_DISCRIMINATOR)
  = Return {| value := ascii_text (ascii_bytes "Foo");
              bytesRead := 4 + N.of_nat (length (ascii_bytes "Foo")) |}.
Proof.
  apply (decodeString_encodeString ascii_text CREATE_DISCRIMINATOR
                                   (ascii_bytes "Foo") [x2a]).
  vm_compute. reflexivity.
Defined.

Lemma parseCreateInstruction_wellformed_witness :
  parseCreateInstruction ascii_text
    (CREATE_DISCRIMINATOR ++ encodeString (ascii_bytes "Foo")
       ++ encodeString (ascii_bytes "FOO")
       ++ encodeString (ascii_bytes "ipfs://x") ++ [x2a])
  = Some {| name := ascii_text (ascii_bytes "Foo");
            symbol := ascii_text (ascii_bytes "FOO");
            uri := ascii_text (ascii_bytes "ipfs://x") |}.
Proof.
  apply (parseCreateInstruction_wellformed ascii_text CREATE_DISCRIMINATOR
           (ascii_bytes "Foo") (ascii_bytes "FOO") (ascii_bytes "ipfs://x")
           [x2a]).
  - reflexivity.
  - vm_compute. reflexivity.
  - vm_compute. reflexivity.
  - vm_compute. reflexivity.
Defined.

Lemma parseCreateInstruction_too_short_witness :
  parseCreateInstruction ascii_text
    (CREATE_DISCRIMINATOR ++ encodeString (ascii_bytes "Foo")) = None.
Proof.
  apply (parseCreateInstruction_too_short ascii_text
           (CREATE_DISCRIMINATOR ++ encodeString (ascii_bytes "Foo"))).
  cbn. lia.
Defined.

Lemma extractAccounts_none_iff_witness :
  extractAccounts ascii_text (sampleTxMessage 0 [0; 9]) 0 = None
  <-> Exists (fun idx => length (accountKeys (sampleTxMessage 0 [0; 9])) <= idx)
             (accounts {| programIdIndex := 0;
                          accounts := [0; 9];
                          data := createPayload |}).
Proof.
  apply (extractAccounts_none_iff ascii_text (sampleTxMessage 0 [0; 9]) 0
           {| programIdIndex := 0; accounts := [0; 9];
              data := createPayload |}).
  reflexivity.
Defined.

Lemma extractAccounts_positions_witness :
  let keyAt position :=
    idx ← [0; 1; 2] !! position;
    ascii_text <$> accountKeys (sampleTxMessage 0 [0; 1; 2]) !! idx in
  Some "A" = keyAt 0 /\ Some "C" = keyAt 2 /\ None = keyAt 7.
Proof.
  apply (extractAccounts_positions ascii_text (sampleTxMessage 0 [0; 1; 2]) 0
           {| programIdIndex := 0; accounts := [0; 1; 2];
              data := createPayload |}
           {| mint := Some "A"; bondingCurve := Some "C"; creator := None |}).
  - reflexivity.
  - vm_compute. reflexivity.
Defined.

Lemma bad_program_index_stops_the_scan_witness :
  scanInstructions ascii_text ascii_text 0 (sampleTxMessage 0 []) "sig1" 42
                   0 ([] ++ {| programIdIndex := 7; accounts := [];
                               data := [] |}
                               :: instructions (sampleTxMessage 0 []))
                   {| totalMints := 0; lastMintTime := None |}
  = scanInstructions ascii_text ascii_text 0 (sampleTxMessage 0 []) "sig1" 42
                     0 ([] ++ [{| programIdIndex := 7; accounts := [];
                                  data := [] |}])
                     {| totalMints := 0; lastMintTime := None |}
  /\ exists shown,
       (scanInstructions ascii_text ascii_text 0 (sampleTxMessage 0 []) "sig1"
                         42 0 ([] ++ {| programIdIndex := 7; accounts := [];
                                        data := [] |}
                                     :: instructions (sampleTxMessage 0 []))
                         {| totalMints := 0; lastMintTime := None |}).2
       = shown ++ [LogError TypeError].
Proof.
  apply (bad_program_index_stops_the_scan ascii_text ascii_text 0
           (sampleTxMessage 0 []) "sig1" 42 0 []
           (instructions (sampleTxMessage 0 []))
           {| programIdIndex := 7; accounts := []; data := [] |}
           {| totalMints := 0; lastMintTime := None |}).
  cbn. lia.
Defined.

Lemma uptime_split_witness :
  let uptime := uptimeOf 1000 126500 in
  (0 <= uptime)%Z
  /\ (uptimeMinutes uptime * 60 + uptimeSeconds uptime = uptime)%Z
  /\ (0 <= uptimeSeconds uptime < 60)%Z
  /\ (uptime * 1000 <= 126500 - 1000 < (uptime + 1) * 1000)%Z.
Proof. apply (uptime_split 1000 126500). lia. Defined.

End MintMonitorMore.

(** ** Substrings *)

Lemma prefix_spec (sub s : string) :
  String.prefix sub s = true <-> exists post, s = sub +:+ post.
Proof.
  revert s. induction sub as [|c sub IH]; intros s.
  - destruct s; cbn; (split; [intros _; eexists; reflexivity|reflexivity]).
  - destruct s as [|d s]; cbn.
    + split; [discriminate|]. intros [post H]. discriminate.
    + destruct (Ascii.ascii_dec c d) as [->|Hne].
      * rewrite IH. split; intros [post H]; exists post.
        -- change (String d sub +:+ post) with (String d (sub +:+ post)).
           now rewrite H.
        -- change (String d sub +:+ post) with (String d (sub +:+ post)) in H.
           now injection H.
      * split; [discriminate|]. intros [post H].
        change (String c sub +:+ post) with (String c (sub +:+ post)) in H.
        congruence.
Qed.

Theorem includes_spec (s sub : string) :
  includes s sub = true <-> exists pre post, s = pre +:+ sub +:+ post.
Proof.
  induction s as [|c s IH]; cbn [includes].
  - rewrite orb_false_r, prefix_spec. split.
    + intros [post H]. now exists EmptyString, post.
    + intros (pre & post & H). destruct pre; [now exists post|discriminate].
  - rewrite orb_true_iff, prefix_spec, IH. split.
    + intros [[post H]|(pre & post & H)].
      * now exists EmptyString, post.
      * exists (String c pre), post. cbn. now rewrite H.
    + intros (pre & post & H). destruct pre as [|d pre].
      * left. now exists post.
      * right. cbn in H. injection H as _ H. now exists pre, post.
Qed.

Module MigrationListenerMore.
Import MigrationListener.

(** X9: a log list is taken as a migration exactly when one of its lines
    contains, as a substring and with this case, one of the phrases
    [Instruction: Migrate], [migrate] or [initialize2]. *)
Theorem hasMigration_spec (logs : list string) :
  hasMigration logs = true
  <-> exists log phrase pre post,
        In log logs
        /\ In phrase ["Instruction: Migrate"; "migrate"; "initialize2"]
        /\ log = pre +:+ phrase +:+ post.
Proof.
  unfold hasMigration. rewrite existsb_exists. split.
  - intros (log & Hin & H).
    apply orb_true_iff in H as [H|H]; [apply orb_true_iff in H as [H|H]|];
      apply includes_spec in H as (pre & post & H);
      eexists log, _, pre, post; (split; [exact Hin|]); (split; [|exact H]);
      cbn; tauto.
  - intros (log & phrase & pre & post & Hin & Hp & H).
    exists log. split; [exact Hin|].
    assert (includes log phrase = true) as Hinc
        by (apply includes_spec; now exists pre, post).
    cbn in Hp. destruct Hp as [<-|[<-|[<-|[]]]]; rewrite Hinc;
      rewrite ?orb_true_r; reflexivity.
Qed.

(** X10: the heartbeat splits the runtime in whole seconds into hours,
    minutes and seconds that add up to it again, minutes and seconds
    below 60. *)
Theorem runtime_split (startTime now : Z) :
  (startTime <= now)%Z ->
  let runtime := runtimeOf startTime now in
  (runtimeHours runtime * 3600 + runtimeMinutes runtime * 60
   + runtimeSeconds runtime = runtime)%Z
  /\ (0 <= runtimeHours runtime)%Z
  /\ (0 <= runtimeMinutes runtime < 60)%Z
  /\ (0 <= runtimeSeconds runtime < 60)%Z.
Proof.
  intros Hle. unfold runtimeOf, runtimeHours, runtimeMinutes, runtimeSeconds.
  cbn zeta.
  assert (0 <= (now - startTime) / 1000)%Z as H0 by (apply Z.div_pos; lia).
  set (r := ((now - startTime) / 1000)%Z) in *.
  rewrite !Z.rem_mod_nonneg by lia.
  zify. Z.div_mod_to_equations. lia.
Qed.


(** *** Closes in a row *)

(** X11: [n] closes in a row, while the attempt budget lasts, schedule
    [n] reconnects with the delays of attempts a+1 .. a+n and raise the
    counter by [n]; once the budget is used up, the next close exits the
    process with code 1. *)
Theorem closes_in_a_row (n : nat) (l : Listener) :
  reconnectAttempts l + n <= maxReconnectAttempts l ->
  reconnectAttempts (closeTimes n l).1 = reconnectAttempts l + n
  /\ (closeTimes n l).2
     = map (fun attempt => SetTimeoutConnect (reconnectDelay attempt))
           (seq (S (reconnectAttempts l)) n)
  /\ (reconnectAttempts l + n = maxReconnectAttempts l ->
      (handleClose (closeTimes n l).1).2 = [ProcessExit 1]).
Proof.
  intros Hle.
  destruct (MigrationListenerProps.closes_in_a_row_schedule n l Hle)
    as (Ha & Hm & Hout).
  split; [exact Ha|]. split; [exact Hout|].
  intros Hn. apply MigrationListenerProps.handleClose_gives_up. lia.
Qed.

Lemma closes_in_a_row_witness :
  reconnectAttempts (closeTimes 10 new).1 = reconnectAttempts new + 10
  /\ (closeTimes 10 new).2
     = map (fun attempt => SetTimeoutConnect (reconnectDelay attempt))
           (seq (S (reconnectAttempts new)) 10)
  /\ (reconnectAttempts new + 10 = maxReconnectAttempts new ->
      (handleClose (closeTimes 10 new).1).2 = [ProcessExit 1]).
Proof. apply (closes_in_a_row 10 new). cbn. lia. Defined.

(** *** Book-keeping *)

Section Rpc.
Variable getTransaction : string -> completion (option Tx).

Lemma recordMigration_countersAgree (l : Listener) (data : MigrationData) :
  countersAgree l -> countersAgree (recordMigration l data).
Proof.
  unfold countersAgree. intros [Hr Hp]. cbn.
  rewrite !List.filter_app, !length_app. cbn.
  destruct data; cbn; lia.
Qed.

Lemma handleMessage_bookkeeping (l : Listener) (m : WsMessage) :
  migrations (handleMessage getTransaction l m).1
  = migrations l ++ eventsOf (handleMessage getTransaction l m).2
  /\ totalLogsReceived (handleMessage getTransaction l m).1
     = totalLogsReceived l + (if isLogsNotification m then 1 else 0)
  /\ reconnectAttempts (handleMessage getTransaction l m).1
     = reconnectAttempts l
  /\ (countersAgree l ->
      countersAgree (handleMessage getTransaction l m).1).
Proof.
  assert (forall l' : Listener,
             migrations l' = migrations l ->
             raydiumMigrationCount l' = raydiumMigrationCount l ->
             pumpswapMigrationCount l' = pumpswapMigrationCount l ->
             countersAgree l -> countersAgree l') as Hsame.
  { unfold countersAgree. intros l' -> -> ->. tauto. }
  destruct m as [id|value|]; cbn [handleMessage isLogsNotification].
  - destruct (id =? 0)%N; cbn; rewrite app_nil_r;
      (split; [reflexivity|]); (split; [lia|]);
      (split; [reflexivity|]); now apply Hsame.
  - unfold processLog. destruct (err value).
    + cbn. rewrite app_nil_r. split; [reflexivity|]. split; [lia|].
      split; [reflexivity|]. now apply Hsame.
    + destruct (hasMigration (logs value)).
      * unfold fetchAndProcessTransaction.
        destruct (getTransaction (signature value)) as [[tx|]|e].
        -- destruct (extractMigrationData tx (signature value)) as [d|].
           ++ cbn. split; [reflexivity|]. split; [lia|].
              split; [reflexivity|]. intros Hc.
              apply (recordMigration_countersAgree (countLog l) d).
              now apply Hsame.
           ++ cbn. rewrite app_nil_r. split; [reflexivity|]. split; [lia|].
              split; [reflexivity|]. now apply Hsame.
        -- cbn. rewrite app_nil_r. split; [reflexivity|]. split; [lia|].
           split; [reflexivity|]. now apply Hsame.
        -- cbn. rewrite app_nil_r. split; [reflexivity|]. split; [lia|].
           split; [reflexivity|]. now apply Hsame.
      * cbn. rewrite app_nil_r. split; [reflexivity|]. split; [lia|].
        split; [reflexivity|]. now apply Hsame.
  - cbn. rewrite app_nil_r. split; [reflexivity|]. split; [lia|].
    split; [reflexivity|]. now apply Hsame.
Qed.

(** X12: over any sequence of messages the migrations recorded are, in
    order, exactly the migrations displayed; [totalLogsReceived] grows by
    the number of log notifications; the reconnect counter is untouched. *)
Theorem handleMessages_bookkeeping (l : Listener) (ms : list WsMessage) :
  migrations (handleMessages getTransaction l ms).1
  = migrations l ++ eventsOf (handleMessages getTransaction l ms).2
  /\ totalLogsReceived (handleMessages getTransaction l ms).1
     = totalLogsReceived l + length (List.filter isLogsNotification ms)
  /\ reconnectAttempts (handleMessages getTransaction l ms).1
     = reconnectAttempts l.
Proof.
  revert l. induction ms as [|m ms IH]; intros l; cbn [handleMessages].
  - cbn. rewrite app_nil_r. repeat split; lia.
  - pose proof (handleMessage_bookkeeping l m) as (Hm & Ht & Hr & _).
    destruct (handleMessage getTransaction l m) as [l1 out1].
    specialize (IH l1).
    destruct (handleMessages getTransaction l1 ms) as [l2 out2].
    cbn [fst snd] in *. destruct IH as (IHm & IHt & IHr).
    rewrite IHm, IHt, IHr, Hm, Ht, Hr.
    rewrite MigrationListenerProps.eventsOf_app, app_assoc.
    cbn [List.filter]. destruct (isLogsNotification m); cbn; repeat split; lia.
Qed.

(** X13: if the Raydium and PumpSwap counters agree with the recorded
    migrations of each kind, they still do after any sequence of
    messages. *)
Theorem counters_agree_with_migrations (l : Listener) (ms : list WsMessage) :
  countersAgree l ->
  countersAgree (handleMessages getTransaction l ms).1.
Proof.
  revert l. induction ms as [|m ms IH]; intros l Hl; cbn [handleMessages].
  - exact Hl.
  - pose proof (handleMessage_bookkeeping l m) as (_ & _ & _ & Hc).
    destruct (handleMessage getTransaction l m) as [l1 out1].
    specialize (IH l1 (Hc Hl)).
    destruct (handleMessages getTransaction l1 ms) as [l2 out2].
    exact IH.
Qed.

End Rpc.

(** *** Extraction *)

(** X14: when the first deciding instruction is one of the Pump.fun
    program, a PumpSwap event is always produced; token and bonding curve
    are the transaction's keys 2 and 1, or [Unknown] where the key list is
    too short. *)
Theorem pumpfun_instruction_always_yields_an_event
        (tx : Tx) (s : string) (keys : list PublicKey)
        (pre post : list Instruction) (i : Instruction) (p : PublicKey) :
  accountKeysOf (message tx) = Some keys ->
  instructionsOf (message tx) = Some (pre ++ i :: post) ->
  Forall (fun j => settles keys j = false) pre ->
  programOf (Some keys) i = Return (Some p) ->
  toString p = PUMPFUN_PROGRAM ->
  extractMigrationData tx s
  = Some (PumpSwap s (slot tx) (blockTime tx)
                   (default "Unknown" (keys !! 2))
                   (default "Unknown" (keys !! 1))
                   "PumpSwap").
Proof.
  intros Hk Hi Hpre Hp Hpump.
  assert (settles keys i = true) as Hs.
  { unfold settles. rewrite Hp. cbn [isProgram]. rewrite Hpump.
    rewrite String.eqb_refl. apply orb_true_r. }
  unfold extractMigrationData, extractMigrationData_body.
  rewrite Hk, Hi, (MigrationListenerProps.scan_first_settling _ _ _ _ _ _ Hpre Hs).
  unfold extractFromInstruction. rewrite Hp.
  cbn [mbind completion_bind isProgram]. rewrite Hpump.
  change (String.eqb PUMPFUN_PROGRAM RAYDIUM_PROGRAM) with false.
  rewrite String.eqb_refl. cbn.
  destruct (keys !! 2), (keys !! 1); reflexivity.
Qed.

(** X15: when the first deciding instruction is a Raydium one with at
    least 7 accounts and one of the account indices it reads (positions
    1, 4, 5, 6) points past the key list, no event is produced at all,
    whatever instructions follow. *)
Theorem raydium_bad_account_index_drops_the_transaction
        (tx : Tx) (s : string) (keys : list PublicKey)
        (pre post : list Instruction) (i : Instruction) (p : PublicKey)
        (a : list nat) (position idx : nat) :
  accountKeysOf (message tx) = Some keys ->
  instructionsOf (message tx) = Some (pre ++ i :: post) ->
  Forall (fun j => settles keys j = false) pre ->
  programOf (Some keys) i = Return (Some p) ->
  toString p = RAYDIUM_PROGRAM ->
  accounts i = Some a ->
  7 <= length a ->
  In position [1; 4; 5; 6] ->
  a !! position = Some idx ->
  length keys <= idx ->
  extractMigrationData tx s = None.
Proof.
  intros Hk Hi Hpre Hp Hray Ha Hlen Hpos Hidx Hbad.
  assert (settles keys i = true) as Hs.
  { unfold settles. rewrite Hp, Ha. cbn [isProgram]. rewrite Hray.
    rewrite String.eqb_refl.
    destruct (Nat.leb_spec 7 (length a)); [reflexivity|lia]. }
  unfold extractMigrationData, extractMigrationData_body.
  rewrite Hk, Hi, (MigrationListenerProps.scan_first_settling _ _ _ _ _ _ Hpre Hs).
  unfold extractFromInstruction. rewrite Hp, Ha.
  cbn [mbind completion_bind isProgram]. rewrite Hray.
  rewrite String.eqb_refl.
  destruct (Nat.ltb_spec (length a) 7); [lia|].
  assert (keyTextAt (Some keys) idx = Throw TypeError) as Hthrow.
  { unfold keyTextAt, keyAt. cbn [mbind completion_bind].
    now rewrite (lookup_ge_None_2 _ _ Hbad). }
  unfold accountIndex.
  destruct a as [|a0 [|a1 [|a2 [|a3 [|a4 [|a5 [|a6 a']]]]]]];
    cbn in Hlen; try lia.
  cbn [lookup list_lookup mbind completion_bind].
  cbn in Hpos.
  destruct Hpos as [<-|[<-|[<-|[<-|[]]]]]; cbn in Hidx;
    injection Hidx as ->;
    repeat match goal with
           | |- context [keyTextAt (Some keys) idx] => rewrite Hthrow
           | |- context [keyTextAt (Some keys) ?j] =>
               destruct (keyTextAt (Some keys) j);
               cbn [mbind completion_bind]; [|reflexivity]
           end; reflexivity.
Qed.


Lemma runtime_split_witness :
  let runtime := runtimeOf 0 3725999 in
  (runtimeHours runtime * 3600 + runtimeMinutes runtime * 60
   + runtimeSeconds runtime = runtime)%Z
  /\ (0 <= runtimeHours runtime)%Z
  /\ (0 <= runtimeMinutes runtime < 60)%Z
  /\ (0 <= runtimeSeconds runtime < 60)%Z.
Proof. apply (runtime_split 0 3725999). lia. Defined.

Example heartbeat_after_an_hour :
  let runtime := runtimeOf 0 3725999 in
  (runtimeHours runtime, runtimeMinutes runtime, runtimeSeconds runtime)
  = (1, 2, 5)%Z.
Proof. vm_compute. reflexivity. Qed.

Lemma counters_agree_with_migrations_witness :
  countersAgree
    (handleMessages
       (fun _ => Return (Some (sampleTx [pumpInstruction])))
       new [migrateLog "sigA"; migrateLog "sigB"]).1.
Proof.
  apply (counters_agree_with_migrations
           (fun _ => Return (Some (sampleTx [pumpInstruction])))
           new [migrateLog "sigA"; migrateLog "sigB"]).
  split; reflexivity.
Defined.

Lemma pumpfun_instruction_always_yields_an_event_witness :
  extractMigrationData
    (sampleTx [otherInstruction; pumpInstruction; raydiumInstruction]) "sigA"
  = Some (PumpSwap "sigA"
            (slot (sampleTx [otherInstruction; pumpInstruction;
                             raydiumInstruction]))
            (blockTime (sampleTx [otherInstruction; pumpInstruction;
                                  raydiumInstruction]))
            (default "Unknown" (sampleKeys !! 2))
            (default "Unknown" (sampleKeys !! 1))
            "PumpSwap").
Proof.
  apply (pumpfun_instruction_always_yields_an_event
           (sampleTx [otherInstruction; pumpInstruction; raydiumInstruction])
           "sigA" sampleKeys [otherInstruction] [raydiumInstruction]
           pumpInstruction PUMPFUN_PROGRAM).
  - reflexivity.
  - reflexivity.
  - repeat constructor.
  - reflexivity.
  - reflexivity.
Defined.

Lemma raydium_bad_account_index_drops_the_transaction_witness :
  extractMigrationData (sampleTx [raydiumBadInstruction; pumpInstruction])
                       "sigA" = None.
Proof.
  apply (raydium_bad_account_index_drops_the_transaction
           (sampleTx [raydiumBadInstruction; pumpInstruction]) "sigA"
           sampleKeys [] [pumpInstruction] raydiumBadInstruction
           RAYDIUM_PROGRAM [0; 9; 2; 0; 1; 2; 0] 1 9).
  - reflexivity.
  - reflexivity.
  - constructor.
  - reflexivity.
  - reflexivity.
  - reflexivity.
  - cbn. lia.
  - cbn. tauto.
  - reflexivity.
  - cbn. lia.
Defined.

End MigrationListenerMore.

Module TransferMonitorMore.
Import TransferMonitor.

(** *** Conversion to a double *)

Theorem toNumber_exact_below_2_53 (n : N) :
  (n < 2 ^ 53)%N -> toNumber n = n.
Proof.
  intros H. unfold toNumber. destruct (N.ltb_spec n (2 ^ 53)); [reflexivity|lia].
Qed.

Lemma toNumber_rounds_to_nearest_aux (n : N) :
  (2 ^ 53 <= n)%N ->
  let ulp := (2 ^ (N.log2 n - 52))%N in
  (toNumber n mod ulp = 0)%N
  /\ (2 * (toNumber n - n) <= ulp)%N
  /\ (2 * (n - toNumber n) <= ulp)%N
  /\ (2 ^ 53 <= toNumber n)%N.
Proof.
  intros Hn. cbn zeta. unfold toNumber.
  destruct (N.ltb_spec n (2 ^ 53)) as [Hlt|_]; [lia|].
  assert (53 <= N.log2 n)%N as Hlog
      by (change 53%N with (N.log2 (2 ^ 53)); now apply N.log2_le_mono).
  set (k := (N.log2 n - 52)%N).
  assert (1 <= k)%N as Hk by (subst k; lia).
  rewrite N.shiftr_div_pow2, !N.shiftl_mul_pow2.
  assert (2 ^ k <> 0)%N as Hpow by (apply N.pow_nonzero; lia).
  assert (2 ^ k = 2 * 2 ^ (k - 1))%N as Hhalf.
  { replace k with (N.succ (k - 1)) at 1 by lia. apply N.pow_succ_r'. }
  pose proof (N.div_mod n (2 ^ k) Hpow) as Hdm.
  pose proof (N.mod_upper_bound n (2 ^ k) Hpow) as Hmod.
  assert (2 ^ 52 <= n / 2 ^ k)%N as Hq.
  { apply N.div_le_lower_bound; [exact Hpow|].
    rewrite N.mul_comm, <- N.pow_add_r.
    replace (52 + k)%N with (N.log2 n) by (subst k; lia).
    apply N.log2_spec. lia. }
  set (q := (n / 2 ^ k)%N) in *. set (p := (2 ^ k)%N) in *.
  set (h := (2 ^ (k - 1))%N) in *.
  set (r := (n mod p)%N) in *.
  clearbody q p h r. clear k Hk Hlog.
  assert (n - q * p = r)%N as -> by nia.
  assert (2 ^ 53 <= q * p)%N as Hqp.
  { change (2 ^ 53)%N with (2 ^ 52 * 2)%N.
    apply N.mul_le_mono; [exact Hq|]. lia. }
  destruct ((h <? r)%N || ((r =? h)%N && N.odd q)) eqn:Hup.
  - assert (h <= r)%N as Hr.
    { apply orb_true_iff in Hup as [H|H].
      - apply N.ltb_lt in H. lia.
      - apply andb_true_iff in H as [H _]. apply N.eqb_eq in H. lia. }
    split; [apply N.Div0.mod_mul|]. nia.
  - assert (r <= h)%N as Hr.
    { apply orb_false_iff in Hup as [H _]. apply N.ltb_ge in H. exact H. }
    split; [apply N.Div0.mod_mul|]. nia.
Qed.

(** X16: from 2^53 on, the number a lamport amount is converted to is a
    multiple of the spacing 2^(log2 n - 52), lies within half a spacing of
    the amount and is itself at least 2^53. *)
Theorem toNumber_rounds_to_nearest (n : N) :
  (2 ^ 53 <= n)%N ->
  let ulp := (2 ^ (N.log2 n - 52))%N in
  (toNumber n mod ulp = 0)%N
  /\ (2 * (toNumber n - n) <= ulp)%N
  /\ (2 * (n - toNumber n) <= ulp)%N
  /\ (2 ^ 53 <= toNumber n)%N.
Proof. intros. apply toNumber_rounds_to_nearest_aux; assumption. Qed.

(** X17: converting the lamports to a number never moves an amount
    across the 100 SOL threshold. *)
Theorem toNumber_keeps_the_threshold (n : N) :
  (THRESHOLD_LAMPORTS <= toNumber n)%N <-> (THRESHOLD_LAMPORTS <= n)%N.
Proof.
  unfold THRESHOLD_LAMPORTS.
  destruct (N.lt_ge_cases n (2 ^ 53)) as [Hlt|Hge].
  - now rewrite toNumber_exact_below_2_53.
  - destruct (toNumber_rounds_to_nearest_aux n Hge) as (_ & _ & _ & H).
    change (2 ^ 53)%N with 9007199254740992%N in *. lia.
Qed.


(** *** Parsing *)

Section Codecs.
Variable bs58_encode : list byte -> string.

(** X18: a System Program transfer written as type 2 and the lamports,
    with at least two account indices inside the key list, parses to the
    converted amount and the encoded first and second account; further
    data bytes and account indices are ignored. *)
Theorem parseTransferInstruction_encodeTransfer
        (lamports : N) (rest : Buf.Buffer) (programIdx i0 i1 : nat)
        (more : list nat) (keys : list (list byte)) (k0 k1 : list byte) :
  (lamports < 2 ^ 64)%N ->
  keys !! i0 = Some k0 ->
  keys !! i1 = Some k1 ->
  parseTransferInstruction bs58_encode
    {| programIdIndex := programIdx;
       accounts := i0 :: i1 :: more;
       data := encodeTransfer lamports ++ rest |} keys
  = Some {| amount := toNumber lamports;
            from := bs58_encode k0;
            to := bs58_encode k1 |}.
Proof.
  intros Hn H0 H1. unfold parseTransferInstruction. cbn [data accounts].
  assert (length (encodeTransfer lamports ++ rest) = 12 + length rest) as Hlen.
  { unfold encodeTransfer, Buf.writeUInt32LE, Buf.writeBigUInt64LE.
    rewrite !length_app, !length_writeLE. lia. }
  destruct (Nat.ltb_spec (length (encodeTransfer lamports ++ rest)) 12);
    [lia|].
  unfold encodeTransfer.
  rewrite <- (app_assoc (Buf.writeUInt32LE 2)).
  pose proof (readUInt32LE_writeUInt32LE
                [] (Buf.writeBigUInt64LE lamports ++ rest) 2%N eq_refl) as Hty.
  cbn [app length] in Hty. rewrite Hty.
  cbn [N.eqb Pos.eqb negb].
  pose proof (readBigUInt64LE_writeBigUInt64LE
                (Buf.writeUInt32LE 2) rest lamports Hn) as Hamount.
  change (length (Buf.writeUInt32LE 2)) with 4 in Hamount. rewrite Hamount.
  unfold encodeKey. rewrite H0, H1. reflexivity.
Qed.

(** X19: a parsed transfer always comes from at least 12 data bytes that
    start with type 2, with the amount read from bytes 4..11 and the two
    parties read through the first two account indices. *)
Theorem parseTransferInstruction_sound
        (instruction : Instruction) (keys : list (list byte))
        (td : TransferData) :
  parseTransferInstruction bs58_encode instruction keys = Some td ->
  12 <= length (data instruction)
  /\ Buf.readUInt32LE (data instruction) 0 = Return 2%N
  /\ exists lamports i0 i1 more k0 k1,
       Buf.readBigUInt64LE (data instruction) 4 = Return lamports
       /\ accounts instruction = i0 :: i1 :: more
       /\ keys !! i0 = Some k0
       /\ keys !! i1 = Some k1
       /\ td = {| amount := toNumber lamports;
                  from := bs58_encode k0;
                  to := bs58_encode k1 |}.
Proof.
  unfold parseTransferInstruction.
  destruct (Nat.ltb_spec (length (data instruction)) 12) as [|Hlen];
    [discriminate|].
  destruct (Buf.readUInt32LE (data instruction) 0) as [ty|e]; [|discriminate].
  destruct (N.eqb_spec ty 2) as [->|Hne]; [|discriminate]. cbn [negb].
  destruct (Buf.readBigUInt64LE (data instruction) 4) as [lamports|e] eqn:El;
    [|discriminate].
  destruct (accounts instruction) as [|i0 [|i1 more]] eqn:Ea;
    try discriminate.
  unfold encodeKey.
  destruct (keys !! i0) as [k0|] eqn:E0; [|discriminate].
  destruct (keys !! i1) as [k1|] eqn:E1; [|discriminate].
  cbn. intros [= <-]. split; [exact Hlen|]. split; [reflexivity|].
  now exists lamports, i0, i1, more, k0, k1.
Qed.

(** *** The handler *)

Lemma classifyInstruction_meets (keys : list (list byte))
      (instruction : Instruction) (td : TransferData) :
  classifyInstruction bs58_encode keys instruction = Return (Some td) ->
  (THRESHOLD_LAMPORTS <= amount td)%N.
Proof.
  unfold classifyInstruction.
  destruct (encodeKey bs58_encode keys (programIdIndex instruction))
    as [programId|e]; [|discriminate].
  cbn [mbind completion_bind].
  destruct (negb _); [discriminate|].
  destruct (parseTransferInstruction bs58_encode instruction keys) as [td'|];
    [|discriminate].
  destruct (meetsThreshold (amount td')) eqn:E; [|discriminate].
  intros [= <-]. now apply TransferMonitorProps.meetsThreshold_lamports.
Qed.

Lemma scanInstructions_summary (keys : list (list byte)) (signature : string)
      (slot : N) (rest : list Instruction) (stats : Stats) :
  let result := scanInstructions bs58_encode keys signature slot rest stats in
  totalTransfers result.1
  = totalTransfers stats + length (transfersOf result.2)
  /\ Forall (fun t => (THRESHOLD_LAMPORTS <= amount (tr_data t))%N
                      /\ (amount (tr_data t) <= largestTransfer result.1)%N
                      /\ tr_signature t = signature /\ tr_slot t = slot)
            (transfersOf result.2)
  /\ (largestTransfer stats <= largestTransfer result.1)%N.
Proof.
  cbn zeta. revert stats.
  induction rest as [|instruction rest IH]; intros stats;
    cbn [scanInstructions].
  - cbn. split; [lia|]. split; [constructor|lia].
  - destruct (classifyInstruction bs58_encode keys instruction)
      as [[td|]|e] eqn:E.
    + apply classifyInstruction_meets in E.
      unfold displayTransfer. cbn [tr_data tr_signature].
      match goal with
      | |- context [scanInstructions _ _ _ _ _ ?st] =>
          specialize (IH st);
          destruct (scanInstructions bs58_encode keys signature slot rest st)
            as [s2 o2]
      end.
      cbn [fst snd transfersOf omap list_omap app] in *.
      destruct IH as (IHc & IHf & IHl). cbn [totalTransfers largestTransfer] in *.
      split; [cbn; lia|]. split.
      * constructor.
        -- cbn [tr_data tr_signature tr_slot].
           repeat split; try exact E.
           destruct (N.ltb_spec (largestTransfer stats) (amount td)); lia.
        -- exact IHf.
      * destruct (N.ltb_spec (largestTransfer stats) (amount td)); lia.
    + apply IH.
    + cbn. split; [lia|]. split; [constructor|lia].
Qed.

(** X20: every transfer the handler displays is of at least 100 SOL;
    [totalTransfers] grows by the number displayed; [largestTransfer]
    never decreases and is at least every amount displayed. *)
Theorem transfer_onData_summary (message : StreamMessage) (stats : Stats) :
  let result := onData bs58_encode message stats in
  totalTransfers result.1
  = totalTransfers stats + length (transfersOf result.2)
  /\ Forall (fun t => (THRESHOLD_LAMPORTS <= amount (tr_data t))%N
                      /\ (amount (tr_data t) <= largestTransfer result.1)%N)
            (transfersOf result.2)
  /\ (largestTransfer stats <= largestTransfer result.1)%N.
Proof.
  cbn zeta. unfold onData.
  destruct (pong message);
    [cbn; split; [lia|]; split; [constructor|lia]|].
  destruct (transaction message) as [upd|];
    [|cbn; split; [lia|]; split; [constructor|lia]].
  destruct (filters message) as [fs|];
    [|cbn; split; [lia|]; split; [constructor|lia]].
  destruct (list_includes fs "sol_transfers");
    [|cbn; split; [lia|]; split; [constructor|lia]].
  destruct (scanInstructions_summary
              (accountKeys (tx_message (upd_transaction upd)))
              (bs58_encode (tx_signature (upd_transaction upd)))
              (upd_slot upd)
              (instructions (tx_message (upd_transaction upd))) stats)
    as (Hc & Hf & Hl).
  split; [exact Hc|]. split; [|exact Hl].
  eapply Forall_impl; [exact Hf|]. cbn. tauto.
Qed.

End Codecs.


Lemma toNumber_rounds_to_nearest_witness :
  let ulp := (2 ^ (N.log2 9007199254740993 - 52))%N in
  (toNumber 9007199254740993 mod ulp = 0)%N
  /\ (2 * (toNumber 9007199254740993 - 9007199254740993) <= ulp)%N
  /\ (2 * (9007199254740993 - toNumber 9007199254740993) <= ulp)%N
  /\ (2 ^ 53 <= toNumber 9007199254740993)%N.
Proof. apply (toNumber_rounds_to_nearest 9007199254740993). vm_compute. discriminate. Defined.

(** 2^53 + 1 is a tie and goes to the even neighbour 2^53; 2^53 + 3 goes
    up to 2^53 + 4. *)
Example toNumber_ties_to_even :
  toNumber 9007199254740993 = 9007199254740992%N
  /\ toNumber 9007199254740995 = 9007199254740996%N.
Proof. vm_compute. split; reflexivity. Qed.

Lemma parseTransferInstruction_encodeTransfer_witness :
  parseTransferInstruction ascii_text
    {| programIdIndex := 2;
       accounts := [0; 1];
       data := encodeTransfer 100000000000 ++ [] |} sampleKeys
  = Some {| amount := toNumber 100000000000;
            from := ascii_text (ascii_bytes "alice");
            to := ascii_text (ascii_bytes "bob") |}.
Proof.
  apply (parseTransferInstruction_encodeTransfer ascii_text
           100000000000 [] 2 0 1 [] sampleKeys
           (ascii_bytes "alice") (ascii_bytes "bob")).
  - vm_compute. reflexivity.
  - reflexivity.
  - reflexivity.
Defined.

Lemma parseTransferInstruction_sound_witness :
  12 <= length (data (transferInstruction lamports100SOL))
  /\ Buf.readUInt32LE (data (transferInstruction lamports100SOL)) 0
     = Return 2%N
  /\ exists lamports i0 i1 more k0 k1,
       Buf.readBigUInt64LE (data (transferInstruction lamports100SOL)) 4
       = Return lamports
       /\ accounts (transferInstruction lamports100SOL) = i0 :: i1 :: more
       /\ sampleKeys !! i0 = Some k0
       /\ sampleKeys !! i1 = Some k1
       /\ {| amount := 100000000000; from := "alice"; to := "bob" |}
          = {| amount := toNumber lamports;
               from := ascii_text k0;
               to := ascii_text k1 |}.
Proof.
  apply (parseTransferInstruction_sound ascii_text
           (transferInstruction lamports100SOL) sampleKeys
           {| amount := 100000000000; from := "alice"; to := "bob" |}).
  vm_compute. reflexivity.
Defined.

End TransferMonitorMore.

Module WhaleTrackerMore.
Import WhaleTracker.

(** *** Frames *)

Lemma sendTelegramMessage_keeps (cfg : Config) (m : TelegramMessage)
      (t : Tracker) :
  whaleAddresses (sendTelegramMessage cfg m t) = whaleAddresses t
  /\ reconnectAttempts (sendTelegramMessage cfg m t) = reconnectAttempts t
  /\ maxReconnectAttempts (sendTelegramMessage cfg m t) = maxReconnectAttempts t
  /\ lastTelegramSent (sendTelegramMessage cfg m t) = lastTelegramSent t.
Proof.
  unfold sendTelegramMessage, processTelegramQueue_begin.
  destruct (negb (hasTelegram cfg)); [now repeat split|].
  destruct t as [ra mra wa tc q sending last d pa bt fl]; cbn.
  destruct sending; cbn; [now repeat split|].
  destruct (q ++ [m]); now repeat split.
Qed.

Section Doubles.
Variable fmul : Q -> Q -> Q.
Variable fadd : Q -> Q -> Q.

(** *** Whale profiles *)

Lemma trackWhaleAddress_profile_aux (now : Z) (address : string) (value : number)
        (coin : string) (t : Tracker) :
  let t' := trackWhaleAddress fadd now address value coin t in
  (exists w,
      whaleAddresses t' !! address = Some w
      /\ w_address w = from_option w_address address (whaleAddresses t !! address)
      /\ w_tradeCount w
         = S (from_option w_tradeCount 0 (whaleAddresses t !! address))
      /\ w_totalVolume w
         = from_option (fun old => add fadd (w_totalVolume old) value) value
                       (whaleAddresses t !! address)
      /\ w_firstSeen w
         = from_option w_firstSeen now (whaleAddresses t !! address)
      /\ w_lastSeen w = now
      /\ coin ∈ w_coins w
      /\ (forall old, whaleAddresses t !! address = Some old ->
                      w_coins old ⊆ w_coins w))
  /\ (forall other, other <> address ->
                    whaleAddresses t' !! other = whaleAddresses t !! other).
Proof.
  cbn zeta. unfold trackWhaleAddress.
  destruct (whaleAddresses t !! address) as [old|] eqn:E;
    cbn [whaleAddresses set_whaleAddresses from_option].
  - split.
    + eexists. rewrite lookup_insert_eq. split; [reflexivity|].
      cbn. repeat split; try reflexivity; try set_solver;
        intros old' [= <-]; set_solver.
    + intros other Hne. now rewrite lookup_insert_ne.
  - split.
    + eexists. rewrite lookup_insert_eq. split; [reflexivity|].
      cbn. repeat split; try reflexivity; try set_solver; discriminate.
    + intros other Hne. now rewrite lookup_insert_ne.
Qed.

(** X21: after a trade is tracked, the profile of its address exists,
    counts one trade more, keeps its first-seen time and its earlier
    coins, carries the trade's coin and time, and has the value added to
    its volume; every other profile is untouched. *)
Theorem trackWhaleAddress_profile (now : Z) (address : string) (value : number)
        (coin : string) (t : Tracker) :
  let t' := trackWhaleAddress fadd now address value coin t in
  (exists w,
      whaleAddresses t' !! address = Some w
      /\ w_address w = from_option w_address address (whaleAddresses t !! address)
      /\ w_tradeCount w
         = S (from_option w_tradeCount 0 (whaleAddresses t !! address))
      /\ w_totalVolume w
         = from_option (fun old => add fadd (w_totalVolume old) value) value
                       (whaleAddresses t !! address)
      /\ w_firstSeen w
         = from_option w_firstSeen now (whaleAddresses t !! address)
      /\ w_lastSeen w = now
      /\ coin ∈ w_coins w
      /\ (forall old, whaleAddresses t !! address = Some old ->
                      w_coins old ⊆ w_coins w))
  /\ (forall other, other <> address ->
                    whaleAddresses t' !! other = whaleAddresses t !! other).
Proof. intros. apply trackWhaleAddress_profile_aux; assumption. Qed.

(** X22: tracking a first trade and then more trades of a new address
    leaves a profile whose trade count is their number and whose volume is
    their values added up in arrival order. *)
Theorem trackAll_totals (now : Z) (address coin : string) (first : number)
        (values : list number) (t : Tracker) :
  whaleAddresses t !! address = None ->
  exists w,
    whaleAddresses (trackAll fadd now address coin (first :: values) t)
      !! address = Some w
    /\ w_tradeCount w = S (length values)
    /\ w_totalVolume w = volumeOf fadd first values
    /\ w_coins w = {[coin]}.
Proof.
  intros Hnone. unfold trackAll. cbn [fold_left].
  assert (exists w0,
             whaleAddresses (trackWhaleAddress fadd now address first coin t)
               !! address = Some w0
             /\ w_tradeCount w0 = 1 /\ w_totalVolume w0 = first
             /\ w_coins w0 = {[coin]}) as (w0 & H0 & Hc0 & Hv0 & Hs0).
  { unfold trackWhaleAddress. rewrite Hnone. cbn. rewrite lookup_insert_eq.
    eexists. split; [reflexivity|]. cbn. repeat split. }
  revert H0 Hc0 Hv0 Hs0.
  generalize (trackWhaleAddress fadd now address first coin t) as t0.
  unfold volumeOf.
  replace (S (length values)) with (1 + length values) by lia.
  generalize 1 as count. revert w0. generalize first as total.
  induction values as [|v values IH]; intros total w0 count t0 H0 Hc0 Hv0 Hs0.
  - exists w0. cbn. repeat split; try assumption. lia.
  - cbn [fold_left length].
    replace (count + S (length values)) with (S count + length values) by lia.
    eapply (IH (add fadd total v)).
    + unfold trackWhaleAddress. rewrite H0. cbn. apply lookup_insert_eq.
    + cbn. now rewrite Hc0.
    + cbn. now rewrite Hv0.
    + cbn. rewrite Hs0. apply union_idemp_L.
Qed.

(** *** Trades *)

(** X23: a trade changes the profile stored at an address only if it is
    a whale trade and that address is its user, a non-empty name other
    than [Unknown]. *)
Theorem analyzeTrade_profile_writes (cfg : Config) (now : Z) (trade : Trade)
        (t : Tracker) (address : string) :
  whaleAddresses (analyzeTrade fmul fadd cfg now trade t).1 !! address
  <> whaleAddresses t !! address ->
  isWhaleTrade cfg (mul fmul (px trade) (sz trade)) (sz trade) = true
  /\ user trade = Some address
  /\ address <> "Unknown" /\ address <> "".
Proof.
  unfold analyzeTrade.
  destruct (isWhaleTrade cfg (mul fmul (px trade) (sz trade)) (sz trade));
    [|cbn; congruence].
  unfold notifyWhaleTrade. cbn [fst set_tradeCount whaleAddresses].
  assert (forall t' n,
             whaleAddresses
               (if hasTelegram cfg
                then sendTelegramMessage cfg (WhaleTradeAlert n) t' else t')
             = whaleAddresses t') as Hsend.
  { intros t' n. destruct (hasTelegram cfg); [|reflexivity].
    apply sendTelegramMessage_keeps. }
  rewrite Hsend. unfold knownUser.
  destruct (user trade) as [u|]; [|congruence].
  destruct (truthy u) eqn:Ht; [|cbn; congruence].
  destruct (String.eqb_spec u "Unknown") as [->|Hne]; [cbn; congruence|].
  cbn [andb negb]. intros Hchanged.
  destruct (decide (address = u)) as [->|Hother].
  - repeat split; try assumption. intros ->. discriminate.
  - exfalso. apply Hchanged.
    now apply (trackWhaleAddress_profile_aux now u _ (coin trade) t).
Qed.

(** X24: over a [trades] message, [tradeCount] grows by the number of
    whale trades in it, and exactly one alert is printed per whale trade. *)
Theorem analyzeTrades_counts (cfg : Config) (now : Z) (trades : list Trade)
        (t : Tracker) :
  tradeCount (analyzeTrades fmul fadd cfg now trades t).1
  = tradeCount t + length (whaleTrades fmul cfg trades)
  /\ length (analyzeTrades fmul fadd cfg now trades t).2
     = length (whaleTrades fmul cfg trades).
Proof.
  revert t. induction trades as [|trade trades IH]; intros t;
    cbn [analyzeTrades whaleTrades List.filter].
  - cbn. lia.
  - destruct (isWhaleTrade cfg (mul fmul (px trade) (sz trade)) (sz trade))
      eqn:Hw.
    + destruct (WhaleTrackerProps.analyzeTrade_whale
                  fmul fadd cfg now trade t Hw) as [Hout Hcount].
      destruct (analyzeTrade fmul fadd cfg now trade t) as [t1 out1].
      specialize (IH t1).
      destruct (analyzeTrades fmul fadd cfg now trades t1) as [t2 out2].
      cbn [fst snd] in *. subst out1. fold (whaleTrades fmul cfg trades).
      cbn [length app]. lia.
    + rewrite (WhaleTrackerProps.analyzeTrade_not_whale
                 fmul fadd cfg now trade t Hw).
      specialize (IH t).
      destruct (analyzeTrades fmul fadd cfg now trades t) as [t2 out2].
      cbn [fst snd app] in *. fold (whaleTrades fmul cfg trades). lia.
Qed.

End Doubles.


(** *** The Telegram consumer *)

Lemma resume_shape (t : Tracker) (m : TelegramMessage) (turn : Turn) :
  inFlight t = Some m ->
  exists throttle posted scheduled retry,
    (processTelegramQueue_resume t turn).2
    = throttle ++ Post posted m :: retry
        ++ [ScheduleNext scheduled (TELEGRAM_DELAY t)]
    /\ (forall e, In e throttle -> exists d, e = Sleep d)
    /\ (forall e, In e retry -> exists d, e = Sleep d)
    /\ (turn_now turn <= posted)%Z
    /\ (lastTelegramSent t + TELEGRAM_DELAY t <= posted)%Z
    /\ (posted <= scheduled)%Z
    /\ telegramQueue (processTelegramQueue_resume t turn).1
       = (if isRateLimited (turn_outcome turn) then [m] else [])
           ++ telegramQueue t ++ turn_arrivals turn
    /\ inFlight (processTelegramQueue_resume t turn).1 = None
    /\ isSendingTelegram (processTelegramQueue_resume t turn).1
       = isSendingTelegram t
    /\ TELEGRAM_DELAY (processTelegramQueue_resume t turn).1 = TELEGRAM_DELAY t
    /\ pendingAlerts (processTelegramQueue_resume t turn).1 = pendingAlerts t
    /\ batchTimer (processTelegramQueue_resume t turn).1 = batchTimer t
    /\ reconnectAttempts (processTelegramQueue_resume t turn).1
       = reconnectAttempts t
    /\ maxReconnectAttempts (processTelegramQueue_resume t turn).1
       = maxReconnectAttempts t.
Proof.
  intros Hm. unfold processTelegramQueue_resume. rewrite Hm.
  set (since := (turn_now turn - lastTelegramSent t)%Z).
  set (throttle := if (since <? TELEGRAM_DELAY t)%Z
                   then [Sleep (TELEGRAM_DELAY t - since)] else []).
  set (posted := if (since <? TELEGRAM_DELAY t)%Z
                 then (turn_now turn + (TELEGRAM_DELAY t - since))%Z
                 else turn_now turn).
  assert (turn_now turn <= posted
          /\ lastTelegramSent t + TELEGRAM_DELAY t <= posted)%Z as [Hnow Hlast].
  { subst posted since. destruct (Z.ltb_spec
      (turn_now turn - lastTelegramSent t) (TELEGRAM_DELAY t)); lia. }
  assert (forall e, In e throttle -> exists d, e = Sleep d) as Hthr.
  { subst throttle. destruct (since <? TELEGRAM_DELAY t)%Z; cbn;
      [intros e [<-|[]]; eexists; reflexivity|intros e []]. }
  assert (0 <= elapse (turn_latency turn))%Z as Hlat by (unfold elapse; lia).
  destruct (turn_outcome turn) as [|status body]; cbn [isRateLimited].
  - exists throttle, posted, (posted + elapse (turn_latency turn))%Z, [].
    cbn. repeat split; try assumption; try lia; try (intros e []).
  - destruct (ok status) eqn:Hok.
    + exists throttle, posted, (posted + elapse (turn_latency turn))%Z, [].
      assert (match body with
              | Some _ => (status =? 429)%Z
              | None => false
              end = false) as ->.
      { destruct body; [|reflexivity]. unfold ok in Hok.
        destruct (Z.eqb_spec status 429) as [->|]; [discriminate|reflexivity]. }
      cbn. repeat split; try assumption; try lia; try (intros e []).
    + destruct body as [errorData|].
      * destruct (status =? 429)%Z.
        -- exists throttle, posted,
             (posted + elapse (turn_latency turn)
              + timerDelay (retryAfterOf errorData * 1000))%Z,
             [Sleep (retryAfterOf errorData * 1000)].
           pose proof (WhaleTrackerProps.timerDelay_positive
                         (retryAfterOf errorData * 1000)) as Hpos.
           cbn. repeat split; try assumption; try lia;
             try (intros e [<-|[]]; eexists; reflexivity).
        -- exists throttle, posted, (posted + elapse (turn_latency turn))%Z, [].
           cbn. repeat split; try assumption; try lia; try (intros e []).
      * exists throttle, posted, (posted + elapse (turn_latency turn))%Z, [].
        cbn. repeat split; try assumption; try lia; try (intros e []).
Qed.

Lemma consumer_run_on_a_queue_aux (t : Tracker) (m : TelegramMessage)
        (rest : list TelegramMessage) (turn : Turn) :
  telegramQueue t = m :: rest ->
  exists throttle posted scheduled retry,
    (processTelegramQueue t turn).2
    = throttle ++ Post posted m :: retry
        ++ [ScheduleNext scheduled (TELEGRAM_DELAY t)]
    /\ (forall e, In e throttle -> exists d, e = Sleep d)
    /\ (forall e, In e retry -> exists d, e = Sleep d)
    /\ (turn_now turn <= posted)%Z
    /\ (lastTelegramSent t + TELEGRAM_DELAY t <= posted)%Z
    /\ (posted <= scheduled)%Z
    /\ telegramQueue (processTelegramQueue t turn).1
       = (if isRateLimited (turn_outcome turn) then [m] else [])
           ++ rest ++ turn_arrivals turn
    /\ inFlight (processTelegramQueue t turn).1 = None
    /\ isSendingTelegram (processTelegramQueue t turn).1 = true.
Proof.
  intros Hq. unfold processTelegramQueue, processTelegramQueue_begin.
  rewrite Hq.
  destruct (resume_shape
              (set_inFlight (Some m)
                 (set_telegramQueue rest (set_isSendingTelegram true t)))
              m turn eq_refl)
    as (throttle & posted & scheduled & retry & Hout & Hthr & Hre & Hnow
        & Hlast & Hsched & Hqueue & Hfl & Hsend & _).
  exists throttle, posted, scheduled, retry.
  repeat split; assumption.
Qed.


Theorem consumer_run_on_an_empty_queue (t : Tracker) (turn : Turn) :
  telegramQueue t = [] -> inFlight t = None ->
  processTelegramQueue t turn = (set_isSendingTelegram false t, []).
Proof.
  intros Hq Hfl. unfold processTelegramQueue, processTelegramQueue_begin.
  rewrite Hq. unfold processTelegramQueue_resume.
  cbn [inFlight set_isSendingTelegram]. now rewrite Hfl.
Qed.

Lemma runConsumer_idle (t : Tracker) (turns : list Turn) :
  inFlight t = None -> isSendingTelegram t = false ->
  runConsumer t turns = (t, []).
Proof.
  intros Hfl Hs. induction turns as [|turn turns IH]; cbn [runConsumer];
    [reflexivity|].
  unfold consumerStep. rewrite Hfl, Hs, IH. reflexivity.
Qed.

(** X26: with no rate limiting and nothing arriving, a consumer whose
    timer is pending posts the queue front to back, one message per turn,
    and keeps the rest. *)
Theorem consumer_posts_in_queue_order (t : Tracker) (turns : list Turn) :
  inFlight t = None -> isSendingTelegram t = true ->
  Forall (fun turn => isRateLimited (turn_outcome turn) = false
                      /\ turn_arrivals turn = []) turns ->
  postsOf (runConsumer t turns).2 = take (length turns) (telegramQueue t)
  /\ outbox (runConsumer t turns).1 = drop (length turns) (telegramQueue t).
Proof.
  intros Hfl Hs Hall. revert t Hfl Hs.
  induction Hall as [|turn turns [Hrate Harr] _ IH]; intros t Hfl Hs.
  - cbn. rewrite drop_0. unfold outbox. now rewrite Hfl.
  - cbn [runConsumer length]. unfold consumerStep. rewrite Hfl, Hs.
    destruct (telegramQueue t) as [|m rest] eqn:Hq.
    + rewrite (consumer_run_on_an_empty_queue t turn Hq Hfl).
      rewrite runConsumer_idle by (destruct t; cbn in *; congruence).
      cbn [fst snd app postsOf omap list_omap take drop].
      split; [reflexivity|]. unfold outbox.
      destruct t; cbn in *. subst. reflexivity.
    + destruct (consumer_run_on_a_queue_aux t m rest turn Hq)
        as (throttle & posted & scheduled & retry & Hout & Hthr & Hre & _ & _
            & _ & Hqueue & Hfl1 & Hs1).
      rewrite Hrate, Harr, app_nil_r in Hqueue. cbn [app] in Hqueue.
      destruct (processTelegramQueue t turn) as [t1 out1].
      cbn [fst snd] in *.
      destruct (IH t1 Hfl1 Hs1) as [IHp IHo].
      destruct (runConsumer t1 turns) as [t2 out2]. cbn [fst snd] in *.
      rewrite Hqueue in IHp, IHo. split; [|exact IHo].
      subst out1. unfold postsOf in *. rewrite !omap_app.
      assert (forall l : list effect,
                 (forall e, In e l -> exists d, e = Sleep d) ->
                 omap (fun e => match e with Post _ m => Some m | _ => None end)
                      l = []) as Hsleeps.
      { induction l as [|e l IHl]; intros Hl; [reflexivity|].
        destruct (Hl e (or_introl eq_refl)) as [d ->]. cbn.
        apply IHl. intros e' He'. apply Hl. now right. }
      rewrite (Hsleeps throttle Hthr). cbn [omap list_omap app].
      rewrite omap_app, (Hsleeps retry Hre). cbn. now rewrite IHp.
Qed.


(** *** What every run keeps *)

Lemma consumerStep_frame (t : Tracker) (turn : Turn) :
  pendingAlerts (consumerStep t turn).1 = pendingAlerts t
  /\ batchTimer (consumerStep t turn).1 = batchTimer t
  /\ TELEGRAM_DELAY (consumerStep t turn).1 = TELEGRAM_DELAY t
  /\ reconnectAttempts (consumerStep t turn).1 = reconnectAttempts t
  /\ maxReconnectAttempts (consumerStep t turn).1 = maxReconnectAttempts t
  /\ tradeCount (consumerStep t turn).1 = tradeCount t
  /\ whaleAddresses (consumerStep t turn).1 = whaleAddresses t
  /\ (consistent t -> consistent (consumerStep t turn).1).
Proof.
  unfold consumerStep, processTelegramQueue, processTelegramQueue_begin,
    processTelegramQueue_resume, consistent.
  destruct t as [ra mra wa tc q sending last d pa bt fl]. cbn.
  destruct fl as [m|].
  - destruct (turn_outcome turn) as [|status [errorData|]];
      try destruct (ok status); try destruct (status =? 429)%Z;
      cbn; repeat split; congruence.
  - destruct sending; [|cbn; repeat split; congruence].
    destruct q as [|m q]; cbn; [repeat split; congruence|].
    destruct (turn_outcome turn) as [|status [errorData|]];
      try destruct (ok status); try destruct (status =? 429)%Z;
      cbn; repeat split; congruence.
Qed.

Section Runs.
Variable fmul : Q -> Q -> Q.
Variable fadd : Q -> Q -> Q.

Lemma analyzeTrade_frame (cfg : Config) (now : Z) (trade : Trade) (t : Tracker) :
  pendingAlerts (analyzeTrade fmul fadd cfg now trade t).1 = pendingAlerts t
  /\ batchTimer (analyzeTrade fmul fadd cfg now trade t).1 = batchTimer t
  /\ TELEGRAM_DELAY (analyzeTrade fmul fadd cfg now trade t).1
     = TELEGRAM_DELAY t
  /\ reconnectAttempts (analyzeTrade fmul fadd cfg now trade t).1
     = reconnectAttempts t
  /\ maxReconnectAttempts (analyzeTrade fmul fadd cfg now trade t).1
     = maxReconnectAttempts t
  /\ (consistent t -> consistent (analyzeTrade fmul fadd cfg now trade t).1).
Proof.
  unfold analyzeTrade.
  destruct (isWhaleTrade cfg (mul fmul (px trade) (sz trade)) (sz trade));
    [|cbn; tauto].
  unfold notifyWhaleTrade. cbn [fst].
  set (tracked := match knownUser (user trade) with
                  | Some u => trackWhaleAddress fadd now u
                                (mul fmul (px trade) (sz trade)) (coin trade) t
                  | None => t
                  end).
  assert (pendingAlerts tracked = pendingAlerts t
          /\ batchTimer tracked = batchTimer t
          /\ TELEGRAM_DELAY tracked = TELEGRAM_DELAY t
          /\ reconnectAttempts tracked = reconnectAttempts t
          /\ maxReconnectAttempts tracked = maxReconnectAttempts t
          /\ (consistent t -> consistent tracked))
    as (Hp & Hb & Hd & Hr & Hm & Hc).
  { subst tracked. destruct (knownUser (user trade)); [|tauto].
    unfold trackWhaleAddress.
    destruct (whaleAddresses t !! s); cbn; tauto. }
  set (notice := {| n_coin := coin trade |}).
  destruct (hasTelegram cfg).
  - pose proof (WhaleTrackerProps.sendTelegramMessage_frame
                  cfg (WhaleTradeAlert notice) tracked) as (Fp & Fb & _ & Fd).
    pose proof (sendTelegramMessage_keeps cfg (WhaleTradeAlert notice) tracked)
      as (_ & Fr & Fm & _).
    pose proof (WhaleTrackerProps.sendTelegramMessage_consistent
                  cfg (WhaleTradeAlert notice) tracked) as Fc.
    cbn [set_tradeCount pendingAlerts batchTimer TELEGRAM_DELAY
         reconnectAttempts maxReconnectAttempts].
    rewrite Fp, Fb, Fd, Fr, Fm. do 5 (split; [assumption|]).
    intros Ht. exact (Fc (Hc Ht)).
  - cbn [set_tradeCount pendingAlerts batchTimer TELEGRAM_DELAY
         reconnectAttempts maxReconnectAttempts].
    do 5 (split; [assumption|]). intros Ht. exact (Hc Ht).
Qed.

Lemma analyzeTrades_frame (cfg : Config) (now : Z) (trades : list Trade)
      (t : Tracker) :
  pendingAlerts (analyzeTrades fmul fadd cfg now trades t).1 = pendingAlerts t
  /\ batchTimer (analyzeTrades fmul fadd cfg now trades t).1 = batchTimer t
  /\ TELEGRAM_DELAY (analyzeTrades fmul fadd cfg now trades t).1
     = TELEGRAM_DELAY t
  /\ reconnectAttempts (analyzeTrades fmul fadd cfg now trades t).1
     = reconnectAttempts t
  /\ maxReconnectAttempts (analyzeTrades fmul fadd cfg now trades t).1
     = maxReconnectAttempts t
  /\ (consistent t -> consistent (analyzeTrades fmul fadd cfg now trades t).1).
Proof.
  revert t. induction trades as [|trade trades IH]; intros t;
    cbn [analyzeTrades]; [cbn; tauto|].
  pose proof (analyzeTrade_frame cfg now trade t) as (Hp & Hb & Hd & Hr & Hm & Hc).
  destruct (analyzeTrade fmul fadd cfg now trade t) as [t1 out1].
  specialize (IH t1).
  destruct (analyzeTrades fmul fadd cfg now trades t1) as [t2 out2].
  cbn [fst snd] in *. destruct IH as (Ip & Ib & Id & Ir & Im & Ic).
  rewrite Ip, Ib, Id, Ir, Im. repeat split; try assumption. tauto.
Qed.

(** X27: whatever trades messages, socket opens and closes, batch
    flushes and consumer turns a fresh tracker goes through,
    [pendingAlerts] stays empty and [batchTimer] stays null; the send
    delay stays 1500 ms, the attempt limit 5, the attempt counter at most
    5, and a suspended consumer run always holds the sending flag. *)
Theorem batching_is_never_engaged (cfg : Config) (events : list Event) :
  let t := run fmul fadd cfg new events in
  pendingAlerts t = []
  /\ batchTimer t = None
  /\ consistent t
  /\ TELEGRAM_DELAY t = 1500%Z
  /\ maxReconnectAttempts t = 5
  /\ reconnectAttempts t <= 5.
Proof.
  cbn zeta. unfold run.
  assert (pendingAlerts new = [] /\ batchTimer new = None /\ consistent new
          /\ TELEGRAM_DELAY new = 1500%Z /\ maxReconnectAttempts new = 5
          /\ reconnectAttempts new <= 5) as Hnew.
  { unfold consistent. cbn. repeat split; try lia. congruence. }
  revert Hnew. generalize new as t.
  induction events as [|e events IH]; intros t Ht; [exact Ht|].
  cbn [fold_left]. apply IH. clear IH.
  destruct Ht as (Hp & Hb & Hc & Hd & Hm & Hr).
  destruct e as [now trades|c|c|now|turn]; cbn [step].
  - pose proof (analyzeTrades_frame cfg now trades t)
      as (Fp & Fb & Fd & Fr & Fm & Fc).
    rewrite Fp, Fb, Fd, Fr, Fm. repeat split; try assumption. tauto.
  - destruct c; cbn; unfold consistent in *; cbn; repeat split;
      try assumption; lia.
  - unfold onClose, handleReconnect.
    destruct (Nat.ltb_spec (reconnectAttempts t) (maxReconnectAttempts t));
      cbn; unfold consistent in *; cbn; repeat split; try assumption; lia.
  - unfold sendBatchedAlerts. rewrite Hp. unfold consistent in *. cbn.
    repeat split; assumption.
  - pose proof (consumerStep_frame t turn)
      as (Fp & Fb & Fd & Fr & Fm & _ & _ & Fc).
    rewrite Fp, Fb, Fd, Fr, Fm. repeat split; try assumption. tauto.
Qed.

(** X28: [sendBatchedAlerts] always leaves [pendingAlerts] empty and the
    timer null; it hands one summary message to Telegram when there were
    alerts and Telegram is configured, and nothing otherwise, so without
    credentials pending alerts are discarded. *)
Theorem sendBatchedAlerts_outcome (cfg : Config) (now : Z) (t : Tracker) :
  consistent t ->
  pendingAlerts (sendBatchedAlerts fadd cfg now t) = []
  /\ batchTimer (sendBatchedAlerts fadd cfg now t) = None
  /\ outbox (sendBatchedAlerts fadd cfg now t)
     = outbox t
       ++ (if hasTelegram cfg
           then match pendingAlerts t with
                | [] => []
                | alerts =>
                    [WhaleActivityBatch
                       (length alerts)
                       (fold_left (fun sum alert => add fadd sum (a_value alert))
                                  alerts (Some 0%Q))
                       alerts now]
                end
           else []).
Proof.
  intros Hc. unfold sendBatchedAlerts.
  destruct (pendingAlerts t) as [|a alerts] eqn:E.
  - cbn. split; [exact E|]. split; [reflexivity|].
    unfold outbox. cbn. destruct (hasTelegram cfg); now rewrite app_nil_r.
  - split; [reflexivity|]. split; [reflexivity|].
    destruct (hasTelegram cfg) eqn:Hcfg.
    + rewrite <- (WhaleTrackerProps.sendTelegramMessage_outbox cfg _ t Hcfg Hc).
      reflexivity.
    + unfold sendTelegramMessage. rewrite Hcfg. cbn [negb].
      rewrite app_nil_r. reflexivity.
Qed.

End Runs.


(** *** The order book *)

Section Orderbook.
Variable fmul : Q -> Q -> Q.

Lemma largeOrderOf_sound (cfg : Config) (side : OrderSide) (level : Level)
      (o : LargeOrder) :
  largeOrderOf fmul cfg side level = Some o ->
  o_side o = side
  /\ o_value o = mul fmul (o_price o) (o_size o)
  /\ exists v, o_value o = Some v /\ Qle (WHALE_THRESHOLD_USD cfg) v.
Proof.
  unfold largeOrderOf.
  assert (forall price size : Field,
             (if ge (mul fmul (asFloat price) (asFloat size))
                    (Some (WHALE_THRESHOLD_USD cfg))
              then Some {| o_side := side;
                           o_price := asFloat price;
                           o_size := asFloat size;
                           o_value := mul fmul (asFloat price) (asFloat size) |}
              else None) = Some o ->
             o_side o = side
             /\ o_value o = mul fmul (o_price o) (o_size o)
             /\ exists v, o_value o = Some v /\ Qle (WHALE_THRESHOLD_USD cfg) v)
    as Hfields.
  { intros price size.
    destruct (ge (mul fmul (asFloat price) (asFloat size))
                 (Some (WHALE_THRESHOLD_USD cfg))) eqn:E; [|discriminate].
    intros [= <-]. cbn. split; [reflexivity|]. split; [reflexivity|].
    unfold ge in E.
    destruct (mul fmul (asFloat price) (asFloat size)) as [v|]; [|discriminate].
    exists v. split; [reflexivity|]. now apply Qle_bool_iff. }
  destruct level as [price size|px sz].
  - apply Hfields.
  - destruct (isTruthy px && isTruthy sz); [apply Hfields|discriminate].
Qed.

Lemma sideOrders_sound (cfg : Config) (side : OrderSide)
      (levels : option BookSide) :
  Forall (fun o => o_side o = side
                   /\ o_value o = mul fmul (o_price o) (o_size o)
                   /\ exists v, o_value o = Some v
                                /\ Qle (WHALE_THRESHOLD_USD cfg) v)
         (sideOrders fmul cfg side levels).
Proof.
  unfold sideOrders. destruct levels as [[ls|]|]; try constructor.
  induction ls as [|level ls IH]; cbn [omap list_omap]; [constructor|].
  destruct (largeOrderOf fmul cfg side level) as [o|] eqn:E; [|exact IH].
  constructor; [|exact IH]. now apply largeOrderOf_sound with level.
Qed.

(** X29: a whale wall alert is never empty, names the book's coin, lists
    bids before asks, and every order in it has a value that is the
    product of its price and size, is not NaN and reaches the USD
    threshold. *)
Theorem analyzeOrderbook_alert (cfg : Config) (bookData : BookData)
        (coin : string) (orders : list LargeOrder) :
  analyzeOrderbook fmul cfg bookData = Some (coin, orders) ->
  coin = book_coin bookData
  /\ orders <> []
  /\ Forall (fun o => o_value o = mul fmul (o_price o) (o_size o)
                      /\ exists v, o_value o = Some v
                                   /\ Qle (WHALE_THRESHOLD_USD cfg) v) orders
  /\ exists bids asks,
       orders = bids ++ asks
       /\ Forall (fun o => o_side o = BID) bids
       /\ Forall (fun o => o_side o = ASK) asks.
Proof.
  unfold analyzeOrderbook.
  destruct (book_levels bookData) as [levels|]; [|discriminate].
  pose proof (sideOrders_sound cfg BID (levels !! 0)) as Hb.
  pose proof (sideOrders_sound cfg ASK (levels !! 1)) as Ha.
  destruct (sideOrders fmul cfg BID (levels !! 0)
              ++ sideOrders fmul cfg ASK (levels !! 1)) as [|o os] eqn:E;
    [discriminate|].
  intros [= <- <-]. split; [reflexivity|]. split; [discriminate|].
  rewrite <- E. split.
  - apply Forall_app. split; (eapply Forall_impl; [eassumption|]); cbn; tauto.
  - exists (sideOrders fmul cfg BID (levels !! 0)),
      (sideOrders fmul cfg ASK (levels !! 1)).
    split; [reflexivity|].
    split; (eapply Forall_impl; [eassumption|]); cbn; tauto.
Qed.

End Orderbook.

(** *** Configuration *)

Lemma splitComma_nonempty (s cur : string) : splitComma s cur <> [].
Proof.
  revert cur. induction s as [|c s IH]; intros cur; cbn [splitComma];
    [discriminate|].
  destruct (Ascii.eqb c ","); [discriminate|apply IH].
Qed.

Lemma append_assoc_char (cur : string) (c : ascii) (s : string) :
  (cur +:+ String c EmptyString) +:+ s = cur +:+ String c s.
Proof.
  induction cur as [|d cur IH].
  - reflexivity.
  - change ((String d cur +:+ String c "") +:+ s)
      with (String d ((cur +:+ String c "") +:+ s)).
    change (String d cur +:+ String c s) with (String d (cur +:+ String c s)).
    now rewrite IH.
Qed.

Lemma joinComma_splitComma (s cur : string) :
  joinComma (splitComma s cur) = cur +:+ s.
Proof.
  revert cur. induction s as [|c s IH]; intros cur; cbn [splitComma].
  - cbn. induction cur as [|d cur IHc]; [reflexivity|].
    change (String d cur +:+ "") with (String d (cur +:+ "")).
    now rewrite <- IHc.
  - destruct (Ascii.eqb_spec c ",") as [->|Hne].
    + pose proof (splitComma_nonempty s EmptyString) as Hne.
      specialize (IH EmptyString).
      destruct (splitComma s EmptyString) as [|p rest]; [congruence|].
      change (joinComma (cur :: p :: rest))
        with (cur +:+ "," +:+ joinComma (p :: rest)).
      rewrite IH. reflexivity.
    + rewrite IH. apply append_assoc_char.
Qed.

(** X30: [split] by commas never gives an empty list, and joining its
    parts with commas gives the string back. *)
Theorem split_then_join (s : string) :
  joinComma (splitComma s EmptyString) = s
  /\ splitComma s EmptyString <> [].
Proof.
  split; [apply (joinComma_splitComma s EmptyString)|apply splitComma_nonempty].
Qed.


Lemma trackAll_totals_witness :
  exists w,
    whaleAddresses
      (trackAll Qplus 0 "0xabc" "BTC"
                (Some 150000%Q :: [Some 120000%Q; Some 110000%Q]) new)
      !! "0xabc" = Some w
    /\ w_tradeCount w = S (length [Some 120000%Q; Some 110000%Q])
    /\ w_totalVolume w
       = volumeOf Qplus (Some 150000%Q) [Some 120000%Q; Some 110000%Q]
    /\ w_coins w = {[ "BTC" ]}.
Proof.
  apply (trackAll_totals Qplus 0 "0xabc" "BTC" (Some 150000%Q)
                         [Some 120000%Q; Some 110000%Q] new).
  reflexivity.
Defined.

Lemma analyzeTrade_profile_writes_witness :
  isWhaleTrade (CONFIG telegramEnv)
    (mul Qmult (px (tradeOf 50000 3 "0xabc")) (sz (tradeOf 50000 3 "0xabc")))
    (sz (tradeOf 50000 3 "0xabc")) = true
  /\ user (tradeOf 50000 3 "0xabc") = Some "0xabc"
  /\ "0xabc" <> "Unknown" /\ "0xabc" <> "".
Proof.
  apply (analyzeTrade_profile_writes Qmult Qplus (CONFIG telegramEnv) 0
           (tradeOf 50000 3 "0xabc") new "0xabc").
  vm_compute. discriminate.
Defined.


Lemma consumer_posts_in_queue_order_witness :
  postsOf (runConsumer queuedTracker
             [turnAt 10000 delivered; turnAt 12000 FetchRejected;
              turnAt 14000 delivered]).2
  = take (length [turnAt 10000 delivered; turnAt 12000 FetchRejected;
                  turnAt 14000 delivered])
         (telegramQueue queuedTracker)
  /\ outbox (runConsumer queuedTracker
               [turnAt 10000 delivered; turnAt 12000 FetchRejected;
                turnAt 14000 delivered]).1
     = drop (length [turnAt 10000 delivered; turnAt 12000 FetchRejected;
                     turnAt 14000 delivered])
            (telegramQueue queuedTracker).
Proof.
  apply (consumer_posts_in_queue_order queuedTracker
           [turnAt 10000 delivered; turnAt 12000 FetchRejected;
            turnAt 14000 delivered]).
  - reflexivity.
  - reflexivity.
  - repeat constructor.
Defined.

Lemma sendBatchedAlerts_outcome_witness :
  pendingAlerts (sendBatchedAlerts Qplus (CONFIG telegramEnv) 0
                   (set_pendingAlerts [pendingA] new)) = []
  /\ batchTimer (sendBatchedAlerts Qplus (CONFIG telegramEnv) 0
                   (set_pendingAlerts [pendingA] new)) = None
  /\ outbox (sendBatchedAlerts Qplus (CONFIG telegramEnv) 0
               (set_pendingAlerts [pendingA] new))
     = outbox (set_pendingAlerts [pendingA] new)
       ++ (if hasTelegram (CONFIG telegramEnv)
           then match pendingAlerts (set_pendingAlerts [pendingA] new) with
                | [] => []
                | alerts =>
                    [WhaleActivityBatch
                       (length alerts)
                       (fold_left
                          (fun sum alert => add Qplus sum (a_value alert))
                          alerts (Some 0%Q))
                       alerts 0]
                end
           else []).
Proof.
  apply (sendBatchedAlerts_outcome Qplus (CONFIG telegramEnv) 0
                                   (set_pendingAlerts [pendingA] new)).
  unfold consistent. cbn. congruence.
Defined.

Lemma analyzeOrderbook_alert_witness :
  "BTC" = book_coin sampleBook
  /\ [ {| o_side := BID; o_price := Some 50000%Q; o_size := Some 3%Q;
          o_value := Some 150000%Q |} ] <> []
  /\ Forall (fun o => o_value o = mul Qmult (o_price o) (o_size o)
                      /\ exists v, o_value o = Some v
                                   /\ Qle (WHALE_THRESHOLD_USD
                                             (CONFIG telegramEnv)) v)
            [ {| o_side := BID; o_price := Some 50000%Q; o_size := Some 3%Q;
                 o_value := Some 150000%Q |} ]
  /\ exists bids asks,
       [ {| o_side := BID; o_price := Some 50000%Q; o_size := Some 3%Q;
            o_value := Some 150000%Q |} ] = bids ++ asks
       /\ Forall (fun o => o_side o = BID) bids
       /\ Forall (fun o => o_side o = ASK) asks.
Proof.
  apply (analyzeOrderbook_alert Qmult (CONFIG telegramEnv) sampleBook "BTC"
           [ {| o_side := BID; o_price := Some 50000%Q; o_size := Some 3%Q;
                o_value := Some 150000%Q |} ]).
  vm_compute. reflexivity.
Defined.

End WhaleTrackerMore.
